(** * RoastMyWebsite: the request pipeline of the Express servers

    A shallow embedding of the JavaScript servers of the repository:
    - [src/app.mjs]: the [/screenshot] server with the DNS gate [isPublicUrl];
    - the first server of [src/unnamed/part_001]: the [/screenshot] server
      whose [getScreenshot] classifies capture errors;
    - the second server of [src/unnamed/part_001]: the [/roast] server with
      APIFlash, Supabase storage and the [roasts] table.

    Outbound services (validator.js, DNS, ipaddr.js, capture-website, fetch,
    sharp, OpenAI, Supabase, JSON.parse) are not code of the repository: they
    are the fields of the record [Env], and every theorem holds for all of
    them.  Handlers are written in a small state-and-exception monad over
    the observable [World]: outbound calls, console lines, the storage bucket
    and the [roasts] table. *)

From Stdlib Require Import ZArith Lia Ascii String.
From stdpp Require Import base strings list gmap sorting.

Local Open Scope Z_scope.
Local Open Scope string_scope.
Local Set Warnings "-register-all".

(** ** JavaScript values *)

(** JSON values as [JSON.parse] yields them.  A number is integral ([JInt])
    or not ([JFrac], numerator and denominator). *)
Inductive json : Type :=
| JNull
| JBool (b : bool)
| JInt (n : Z)
| JFrac (num : Z) (den : positive)
| JStr (s : string)
| JArr (items : list json)
| JObj (fields : list (string * json)).

(** Property read [o.k]: [None] is JavaScript's [undefined]. *)
Fixpoint assoc {A : Type} (k : string) (l : list (string * A)) : option A :=
  match l with
  | [] => None
  | (k', v) :: l' => if String.eqb k k' then Some v else assoc k l'
  end.

(** [!v] is [negb (truthy v)]. *)
Definition truthy (v : option json) : bool :=
  match v with
  | None | Some JNull => false
  | Some (JBool b) => b
  | Some (JInt n) => negb (n =? 0)%Z
  | Some (JFrac _ _) => true
  | Some (JStr s) => negb (String.eqb s "")
  | Some (JArr _) | Some (JObj _) => true
  end.

(** [s.includes(x)] *)
Fixpoint includes (s x : string) : bool :=
  String.prefix x s ||
  match s with
  | EmptyString => false
  | String _ s' => includes s' x
  end.

(** What an HTTP client library hangs on an error: [error.response]. *)
Record ProviderResponse : Type := {
  status_of : Z;
  data_of : json;
  headers_of : string;
}.

(** A thrown value: [error.message] and, for API errors, [error.response]. *)
Record JsError : Type := {
  message : string;
  response : option ProviderResponse;
}.

(** [new Error(msg)] *)
Definition Error (msg : string) : JsError :=
  {| message := msg; response := None |}.

(** The result of a call that may throw, of a promise that may reject. *)
Inductive Outcome (A : Type) : Type :=
| Return (a : A)
| Throw (e : JsError).
Arguments Return {A} a.
Arguments Throw {A} e.

(** ** The observable world *)

(** A row of the [roasts] table. *)
Record Row : Type := {
  id : string;
  url : string;
  roast_json : json;
  screenshot_url : string;
  visitor_id : json;
  created_at : Z;
}.

(** Outbound network calls, in the order of the pipeline. *)
Inductive Call : Type :=
| DnsLookup (hostname : string)
| CaptureWebsite (target : string)
| ApiFlashFetch (apiUrl : string)
| StorageUpload (path : string) (bytes : string)
| OpenAiCreate (imageUrl : string)
| DbInsert (rowId : string)
| DbSelect.

(** One argument of a [console.log] or [console.error] call. *)
Inductive LogArg : Type :=
| LS (s : string)
| LN (n : Z)
| LJ (j : json)
| LU.

(** Every list of the world is newest first. *)
Record World : Type := {
  calls : list Call;
  console : list (list LogArg);
  bucket : list (string * string);
  roasts : list Row;
}.

Definition add_call (c : Call) (w : World) : World :=
  {| calls := c :: calls w; console := console w;
     bucket := bucket w; roasts := roasts w |}.

Definition add_line (l : list LogArg) (w : World) : World :=
  {| calls := calls w; console := l :: console w;
     bucket := bucket w; roasts := roasts w |}.

Definition add_object (path bytes : string) (w : World) : World :=
  {| calls := calls w; console := console w;
     bucket := (path, bytes) :: bucket w; roasts := roasts w |}.

Definition add_row (r : Row) (w : World) : World :=
  {| calls := calls w; console := console w;
     bucket := bucket w; roasts := r :: roasts w |}.

(** ** The monad of handlers: state and exceptions *)

Definition Eff (A : Type) : Type := World -> Outcome A * World.

Definition ret {A : Type} (a : A) : Eff A := fun w => (Return a, w).

Definition throw {A : Type} (e : JsError) : Eff A := fun w => (Throw e, w).

Definition bind {A B : Type} (m : Eff A) (k : A -> Eff B) : Eff B :=
  fun w =>
    match m w with
    | (Return a, w') => k a w'
    | (Throw e, w') => (Throw e, w')
    end.

(** [try { m } catch (error) { h error }] *)
Definition try_catch {A : Type} (m : Eff A) (h : JsError -> Eff A) : Eff A :=
  fun w =>
    match m w with
    | (Return a, w') => (Return a, w')
    | (Throw e, w') => h e w'
    end.

(** The value of a settled promise, or its rejection rethrown by [await]. *)
Definition await {A : Type} (o : Outcome A) : Eff A :=
  fun w => (o, w).

Definition call (c : Call) : Eff unit := fun w => (Return tt, add_call c w).

(** [console.log] and [console.error] *)
Definition console_log (l : list LogArg) : Eff unit :=
  fun w => (Return tt, add_line l w).
Definition console_error (l : list LogArg) : Eff unit :=
  fun w => (Return tt, add_line l w).

Declare Scope eff_scope.
Delimit Scope eff_scope with eff.
Notation "'let*' x ':=' m 'in' k" := (bind m (fun x => k))
  (at level 10, x name, m at level 100, k at level 200) : eff_scope.
Notation "m ';;;' k" := (bind m (fun _ => k))
  (at level 100, k at level 200, right associativity) : eff_scope.
Local Open Scope eff_scope.

(** ** HTTP requests and responses *)

Inductive Method : Type := GET | POST.

Record Request : Type := {
  method : Method;
  path : list string;
  ip : string;
  time : Z;
  body : list (string * json);
}.

Record Response : Type := {
  status : Z;
  headers : list (string * Z);
  json_body : json;
}.

(** [res.status(code).json(j)] *)
Definition res_status_json (code : Z) (j : json) : Response :=
  {| status := code; headers := []; json_body := j |}.

Definition error_body (msg : string) : json := JObj [("error", JStr msg)].

(** ** The outside world *)

(** What [fetch(apiUrl)] comes to: a rejection, or a response with its [ok]
    flag, its text and its bytes. *)
Inductive FetchResult : Type :=
| FetchRejects (e : JsError)
| FetchResponse (ok : bool) (text : string) (arrayBuffer : string).

(** What [supabase.storage.from(..).upload(..)] comes to: a rejection, or a
    resolved [{ data, error }]. *)
Inductive UploadResult : Type :=
| UploadData (path : string)
| UploadError (e : JsError).

(** [ipaddr.parse(address)]: the address' [range()], and what calling
    [isPrivate()] on it gives ([Throw] when the call throws). *)
Record IpAddr : Type := {
  range : string;
  isPrivate : Outcome bool;
}.

Record Env : Type := {
  (* validator.js *)
  isURL : string -> bool;
  isUUID : string -> bool;
  (* url, dns, ipaddr.js *)
  URL_hostname : string -> Outcome string;
  dns_lookup : string -> Outcome string;
  ipaddr_parse : string -> Outcome IpAddr;
  (* capture-website *)
  captureWebsite_base64 : string -> Outcome string;
  (* process.env *)
  apiFlashKey : option string;
  RATE_LIMIT_WHITELIST : option string;
  (* String.prototype.trim *)
  String_trim : string -> string;
  (* fetch, sharp, crypto, Buffer *)
  encodeURIComponent : string -> string;
  fetch : string -> FetchResult;
  sharp_resize_webp : string -> Outcome string;
  randomUUID : string;
  toString_base64 : string -> string;
  (* OpenAI *)
  openai_create : string -> Outcome string;
  JSON_parse : string -> Outcome json;
  (* Supabase *)
  storage_upload : string -> string -> Outcome UploadResult;
  upload_settles_first : bool;
  getPublicUrl : string -> string;
  insert_error : Row -> option JsError;
  select_error : option JsError;
}.

(** ** Helpers shared by the servers *)

(** A line feed, as the template literals of the source contain it. *)
Definition nl : string := String "010"%char EmptyString.

Definition log_value (v : option json) : LogArg :=
  match v with
  | Some j => LJ j
  | None => LU
  end.

(** [Promise.all([p1, p2])]: both operations are started; the result is the
    pair of their values, or the rejection of the one that rejects first.  The
    world returned is the one in which both have settled. *)
Definition Promise_all {A B : Type} (first_settles_first : bool)
    (p1 : Eff A) (p2 : Eff B) : Eff (A * B) :=
  fun w =>
    let (r1, w1) := p1 w in
    let (r2, w2) := p2 w1 in
    match r1, r2 with
    | Return a, Return b => (Return (a, b), w2)
    | Throw e, Return _ => (Throw e, w2)
    | Return _, Throw e => (Throw e, w2)
    | Throw e1, Throw e2 => (Throw (if first_settles_first then e1 else e2), w2)
    end.

(** [validURL(str)]: validator.js asserts that its argument is a string and
    throws a TypeError otherwise. *)
Definition validURL (E : Env) (str : option json) : Eff bool :=
  match str with
  | Some (JStr s) => ret (isURL E s)
  | _ => throw (Error "Expected a string")
  end.

(** The string behind a value already known to be one. *)
Definition as_string (v : option json) : string :=
  match v with
  | Some (JStr s) => s
  | _ => ""
  end.

(** * The rate limiter *)

(** [express-rate-limit] is a dependency: the repository configures it
    ([windowMs], [max], [message], [skip]) and attaches the middleware it
    returns to a route.  The middleware itself is modelled here. *)
Module RateLimit.

Record Options : Type := {
  windowMs : Z;
  max : Z;
  message : json;
  skip : Request -> bool;
}.

(** The counter of one client address: hits in the current window, and the
    time the window ends. *)
Record Hit : Type := {
  totalHits : Z;
  resetTime : Z;
}.

(** The state of a server: the limiter's store, private to the limiter, and
    the world the handlers act on. *)
Record AppState : Type := {
  hits : gmap string Hit;
  world : World;
}.

Definition Handler : Type := AppState -> Outcome Response * AppState.

(** A route with no middleware: the handler alone. *)
Definition run (h : Eff Response) : Handler :=
  fun st =>
    let (r, w) := h (world st) in
    (r, {| hits := hits st; world := w |}).

(** Modelled from the spec: the fixed-window counter of express-rate-limit's
    memory store ("Fixed-window counter keyed by client network address").
    A first hit, or a hit after the window has ended, opens a window of
    [windowMs]; any other hit counts in the current window. *)
Definition increment (o : Options) (now : Z) (key : string)
    (store : gmap string Hit) : Hit :=
  match store !! key with
  | Some h =>
      if (now <? resetTime h)%Z
      then {| totalHits := totalHits h + 1; resetTime := resetTime h |}
      else {| totalHits := 1; resetTime := now + windowMs o |}
  | None => {| totalHits := 1; resetTime := now + windowMs o |}
  end.

(** The rate-limit metadata of a response: limit, remaining, seconds to reset. *)
Definition info (o : Options) (now : Z) (h : Hit) : list (string * Z) :=
  [("RateLimit-Limit", max o);
   ("RateLimit-Remaining", Z.max 0 (max o - totalHits h));
   ("RateLimit-Reset", (resetTime h - now + 999) / 1000)].

Definition set_headers (hs : list (string * Z)) (r : Response) : Response :=
  {| status := status r; headers := hs ++ headers r; json_body := json_body r |}.

Definition rejection (o : Options) (now : Z) (h : Hit) : Response :=
  {| status := 429; headers := info o now h; json_body := message o |}.

(** Modelled from the spec: the middleware [rateLimit(options)] returns
    ("Addresses in a configured allow-list bypass counting unconditionally.
    On exceeding the limit, respond with a fixed rejection message and
    standard rate-limit metadata (limit, remaining, reset) without running any
    downstream stage").  [next] is the rest of the route. *)
Definition rateLimit (o : Options) (req : Request) (next : Eff Response)
    : Handler :=
  fun st =>
    if skip o req then run next st
    else
      let h := increment o (time req) (ip req) (hits st) in
      let store := <[ip req := h]> (hits st) in
      if (max o <? totalHits h)%Z then
        (Return (rejection o (time req) h), {| hits := store; world := world st |})
      else
        let (r, w) :=  next (world st) in
        (match r with
         | Return res => Return (set_headers (info o (time req) h) res)
         | Throw e => Throw e
         end,
         {| hits := store; world := w |}).

End RateLimit.

(** ** The limiter as the servers configure it *)

(** [str.split(",")] *)
Fixpoint split_comma (s : string) : list string :=
  match s with
  | EmptyString => [EmptyString]
  | String c s' =>
      if Ascii.eqb c ","%char then EmptyString :: split_comma s'
      else match split_comma s' with
           | x :: xs => String c x :: xs
           | [] => [String c EmptyString]
           end
  end.

(** [(process.env.RATE_LIMIT_WHITELIST || "").split(",").map((ip) => ip.trim())];
    [trim] is the built-in of the environment. *)
Definition whitelist (E : Env) : list string :=
  map (String_trim E) (split_comma (if truthy (JStr <$> RATE_LIMIT_WHITELIST E)
                         then default "" (RATE_LIMIT_WHITELIST E) else "")).

(** The options of [const limiter = rateLimit({ ... })]. *)
Definition limiter_options (E : Env) : RateLimit.Options :=
  {| RateLimit.windowMs := 15 * 60 * 1000;
     RateLimit.max := 3;
     RateLimit.message :=
       error_body "Are you trying to bankrupt me? Slow down!";
     RateLimit.skip := fun req =>
       let clientIp := ip req in
       bool_decide (clientIp ∈ whitelist E) |}.

Definition limiter (E : Env) : Request -> Eff Response -> RateLimit.Handler :=
  RateLimit.rateLimit (limiter_options E).

(** What Express answers when no route matches. *)
Definition not_found : Eff Response := ret (res_status_json 404 JNull).

(** * The [/roast] server (second server of [src/unnamed/part_001]) *)

Module RoastServer.

(** The answer of [POST /roast] to anything thrown inside its [try]. *)
Definition unexpected_error : Response :=
  res_status_json 500 (error_body "An unexpected error occurred.").

(** [fetch] did not give an image: it rejected, or the response is not [ok]. *)
Definition fetch_fails (f : FetchResult) : bool :=
  match f with
  | FetchRejects _ => true
  | FetchResponse ok _ _ => negb ok
  end.

(** ** The table [roasts] *)

Definition row_json (r : Row) : json :=
  JObj [("id", JStr (id r)); ("url", JStr (url r));
        ("roast_json", roast_json r); ("screenshot_url", JStr (screenshot_url r));
        ("visitor_id", visitor_id r); ("created_at", JInt (created_at r))].

(** [.order("created_at", { ascending: false })]: a stable insertion sort. *)
Fixpoint insert_desc (r : Row) (l : list Row) : list Row :=
  match l with
  | [] => [r]
  | r' :: l' =>
      if (created_at r' <? created_at r)%Z then r :: l
      else r' :: insert_desc r l'
  end.

Definition order_created_at_desc (l : list Row) : list Row :=
  foldr insert_desc [] l.

(** [.eq("id", v)] and [.eq("visitor_id", v)] *)
Definition eq_id (v : string) (l : list Row) : list Row :=
  List.filter (fun r => String.eqb (id r) v) l.

Definition visitor_is (v : string) (r : Row) : bool :=
  match visitor_id r with
  | JStr s => String.eqb s v
  | _ => false
  end.

Definition eq_visitor_id (v : string) (l : list Row) : list Row :=
  List.filter (visitor_is v) l.

(** The [{ data, error }] of a query. *)
Inductive QueryResult (A : Type) : Type :=
| QData (data : A)
| QError (error : JsError).
Arguments QData {A} data.
Arguments QError {A} error.

(** [.single()]: exactly one row, or an error. *)
Definition single (l : list Row) : QueryResult Row :=
  match l with
  | [r] => QData r
  | _ => QError (Error "JSON object requested, multiple (or no) rows returned")
  end.

Section Handlers.
Variable E : Env.

(** [await supabase.from("roasts").select("*")...]: the query [q] over the
    table, unless the request to the database fails. *)
Definition db_select {A : Type} (q : list Row -> QueryResult A)
    : Eff (QueryResult A) :=
  call DbSelect ;;;
  fun w =>
    match select_error E with
    | Some e => (Return (QError e), w)
    | None => (Return (q (roasts w)), w)
    end.

(** [await supabase.from("roasts").insert(row).select().single()] *)
Definition db_insert (r : Row) : Eff (QueryResult Row) :=
  call (DbInsert (id r)) ;;;
  fun w =>
    match insert_error E r with
    | Some e => (Return (QError e), w)
    | None => (Return (QData r), add_row r w)
    end.

(** [supabase.storage.from("screenshots").upload(path, bytes, ..)] *)
Definition upload (path bytes : string) : Eff UploadResult :=
  call (StorageUpload path bytes) ;;;
  fun w =>
    match storage_upload E path bytes with
    | Return (UploadData p) => (Return (UploadData p), add_object p bytes w)
    | o => (o, w)
    end.

(** [analyzeImage], lines 479-532 *)
Definition analyzeImage (base64Image : string) : Eff string :=
  try_catch
    (let imageUrl := "data:image/png;base64," +:+ base64Image in
     call (OpenAiCreate imageUrl) ;;;
     let* analysisResult := await (openai_create E imageUrl) in
     ret analysisResult)
    (fun error =>
       console_error [LS (nl +:+ "--- FULL OPENAI API ERROR LOG ---")] ;;;
       match response error with
       | Some r =>
           console_error [LS "STATUS:"; LN (status_of r)] ;;;
           console_error [LS "DATA:"; LJ (data_of r)] ;;;
           console_error [LS "HEADERS:"; LS (headers_of r)]
       | None =>
           console_error [LS "An unexpected error occurred:"; LS (message error)]
       end ;;;
       console_error [LS ("--- END OF ERROR LOG ---" +:+ nl)] ;;;
       throw (Error
         "Failed to analyze screenshot with OpenAI Vision. See server logs for full details.")).

(** [getScreenshotFromAPI], lines 534-563 *)
Definition apiUrl_of (key targetUrl : string) : string :=
  "https://api.apiflash.com/v1/urltoimage" +:+ nl +:+
  "?access_key=" +:+ key +:+ nl +:+
  "&url=" +:+ encodeURIComponent E targetUrl +:+ nl +:+
  "&format=webp" +:+ nl +:+
  "&width=1280" +:+ nl +:+
  "&full_page=true" +:+ nl +:+
  "&quality=80" +:+ nl +:+
  "&scroll_page=true" +:+ nl +:+
  "&no_cookie_banners=true" +:+ nl +:+
  "&no_ads=true".

Definition getScreenshotFromAPI (targetUrl : string) : Eff string :=
  match apiFlashKey E with
  | None | Some EmptyString =>
      throw (Error "APIFlash API key is not configured.")
  | Some key =>
      console_log [LS "Requesting screenshot from APIFlash..."] ;;;
      let apiUrl := apiUrl_of key targetUrl in
      call (ApiFlashFetch apiUrl) ;;;
      match fetch E apiUrl with
      | FetchRejects e => throw e
      | FetchResponse false errorText _ =>
          console_error [LS "APIFlash Error:"; LS errorText] ;;;
          throw (Error "Failed to capture screenshot via APIFlash.")
      | FetchResponse true _ imageBuffer => ret imageBuffer
      end
  end.

(** [app.get("/")] *)
Definition GET_root : Eff Response :=
  ret (res_status_json 200 (JObj [("status", JStr "ok")])).

(** [app.get("/roasts")], lines 569-584 *)
Definition GET_roasts : Eff Response :=
  try_catch
    (let* r := db_select (fun t => QData (take 3%nat (order_created_at_desc t))) in
     match r with
     | QError error => throw error
     | QData data => ret (res_status_json 200 (JArr (map row_json data)))
     end)
    (fun error =>
       console_error [LS "Error fetching roasts:"; LS (message error)] ;;;
       ret (res_status_json 500 (error_body "Failed to fetch roasts."))).

(** [app.get("/roasts/:id")], lines 586-611 *)
Definition GET_roasts_id (id : string) : Eff Response :=
  if negb (isUUID E id) then
    ret (res_status_json 400 (error_body "Invalid roast ID format."))
  else
    try_catch
      (let* r := db_select (fun t => single (eq_id id t)) in
       match r with
       | QError error =>
           console_error [LS "Error fetching single roast:"; LS (message error)] ;;;
           ret (res_status_json 404 (error_body "Roast not found."))
       | QData data => ret (res_status_json 200 (row_json data))
       end)
      (fun error =>
         console_error [LS "Error processing request:"; LS (message error)] ;;;
         ret (res_status_json 500 (error_body "An unexpected error occurred."))).

(** [app.get("/roasts/mine/:visitorId")], lines 613-638 *)
Definition GET_roasts_mine (visitorId : string) : Eff Response :=
  if negb (truthy (Some (JStr visitorId))) || negb (isUUID E visitorId) then
    ret (res_status_json 400 (error_body "Invalid visitor ID format."))
  else
    try_catch
      (let* r := db_select (fun t =>
                   QData (order_created_at_desc (eq_visitor_id visitorId t))) in
       match r with
       | QError error =>
           console_error [LS "Error fetching visitor roasts:"; LS (message error)] ;;;
           ret (res_status_json 404 (error_body "No roasts found for this visitor."))
       | QData data => ret (res_status_json 200 (JArr (map row_json data)))
       end)
      (fun error =>
         console_error [LS "Error processing request:"; LS (message error)] ;;;
         ret (res_status_json 500 (error_body "Failed to fetch visitor roasts."))).

(** The object literal of [.insert({ ... })], lines 708-714; [created_at]
    is the table's default, the time of the request. *)
Definition roast_row (req : Request) (uniqueId url : string)
    (analysisObject : json) (publicUrl : string) (visitorId : option json) : Row :=
  {| id := uniqueId;
     url := url;
     roast_json := analysisObject;
     screenshot_url := publicUrl;
     visitor_id := (if truthy visitorId then default JNull visitorId else JNull);
     created_at := time req |}.

(** Steps 3 to 5 of the handler, lines 674-721: the identifier, the upload
    and the analysis side by side, the insert. *)
Definition commit (req : Request) (url : string) (visitorId : option json)
    (compressedImageBuffer : string) : Eff Response :=
  (* 3. Perform Concurrent Operations (Upload + Analysis) *)
  let uniqueId := randomUUID E in
  console_log [LS "Starting parallel tasks: Uploading to Supabase and Analyzing with OpenAI..."] ;;;
  let base64Image := toString_base64 E compressedImageBuffer in
  let* results :=
    Promise_all (upload_settles_first E)
      (upload ("public/" +:+ uniqueId +:+ ".webp") compressedImageBuffer)
      (analyzeImage base64Image) in
  let '(uploadResult, analysisResult) := results in
  (* 4. Process Results *)
  match uploadResult with
  | UploadError uploadError => throw uploadError
  | UploadData uploadPath =>
      console_log [LS "Screenshot uploaded to Supabase."] ;;;
      let publicUrl := getPublicUrl E uploadPath in
      let* analysisObject := await (JSON_parse E analysisResult) in
      console_log [LS "AI analysis complete."] ;;;
      (* 5. Save Everything to the Database *)
      let* inserted :=
        db_insert (roast_row req uniqueId url analysisObject publicUrl visitorId) in
      match inserted with
      | QError insertError => throw insertError
      | QData insertData =>
          console_log [LS "Roast saved to database. Sending response."] ;;;
          ret (res_status_json 200 (row_json insertData))
      end
  end.

(** [app.post("/roast", limiter, ...)], lines 640-726: the handler. *)
Definition POST_roast (req : Request) : Eff Response :=
  console_log [LS "Received public roast request for:"; log_value (assoc "url" (body req))] ;;;
  let url := assoc "url" (body req) in
  let visitorId := assoc "visitorId" (body req) in
  (* 1. Validate Input *)
  let* invalid :=
    (if negb (truthy url) then ret true
     else let* v := validURL E url in ret (negb v)) in
  if invalid then
    ret (res_status_json 400 (error_body "A valid URL is required."))
  else
    try_catch
      ((* 2. Get Screenshot *)
       let* screenshotBuffer := getScreenshotFromAPI (as_string url) in
       console_log [LS "Screenshot captured."] ;;;
       console_log [LS "Original screenshot size:";
                    LN (Z.of_nat (String.length screenshotBuffer))] ;;;
       let* compressedImageBuffer := await (sharp_resize_webp E screenshotBuffer) in
       console_log [LS "Compressed screenshot size:";
                    LN (Z.of_nat (String.length compressedImageBuffer))] ;;;
       commit req (as_string url) visitorId compressedImageBuffer)
      (fun error =>
         console_error [LS "Error processing request:"; LS (message error)] ;;;
         ret unexpected_error).


End Handlers.

(** The routes, in the order of their registration.  Only [POST /roast] has
    the limiter in front of its handler. *)
Definition app (E : Env) (req : Request) : RateLimit.Handler :=
  match method req, path req with
  | GET, [] => RateLimit.run GET_root
  | GET, [a] =>
      if String.eqb a "roasts" then RateLimit.run (GET_roasts E)
      else RateLimit.run not_found
  | GET, [a; b] =>
      if String.eqb a "roasts" then RateLimit.run (GET_roasts_id E b)
      else RateLimit.run not_found
  | GET, [a; b; c] =>
      if String.eqb a "roasts" && String.eqb b "mine"
      then RateLimit.run (GET_roasts_mine E c)
      else RateLimit.run not_found
  | POST, [a] =>
      if String.eqb a "roast" then limiter E req (POST_roast E req)
      else RateLimit.run not_found
  | _, _ => RateLimit.run not_found
  end.

End RoastServer.

(** * The [/screenshot] servers *)

(** What the two [/screenshot] servers share: [analyzeImage] (lines 157-195
    of [src/unnamed/part_001], lines 194-232 of [src/app.mjs]), the
    validation of [url] and the [catch] of the route. *)
Module Screenshot.

Section Handlers.
Variable E : Env.

Definition analyzeImage (base64Image : string) : Eff string :=
  try_catch
    (let imageUrl := "data:image/png;base64," +:+ base64Image in
     call (OpenAiCreate imageUrl) ;;;
     let* analysisResult := await (openai_create E imageUrl) in
     ret analysisResult)
    (fun error =>
       console_error [LS "Failed to analyze screenshot with OpenAI Vision:";
                      LS (message error)] ;;;
       throw (Error "Failed to analyze screenshot with OpenAI Vision.")).

Definition is_string (v : option json) : bool :=
  match v with
  | Some (JStr _) => true
  | _ => false
  end.

(** [!url || typeof url !== "string" || url.length > 2048 || !validURL(url)] *)
Definition invalid_url (url : option json) : Eff bool :=
  if negb (truthy url) then ret true
  else if negb (is_string url) then ret true
  else if Nat.ltb 2048 (String.length (as_string url)) then ret true
  else let* v := validURL E url in ret (negb v).

Definition invalid_url_response (url : option json) : Response :=
  res_status_json 400
    (if negb (truthy url) then error_body "URL is required."
     else error_body
       "Invalid URL format. A valid URL (including http:// or https://) is required.").

(** The [catch (error)] of [POST /screenshot]. *)
Definition on_error (error : JsError) : Eff Response :=
  console_error [LS "Error processing request:"; LS (message error)] ;;;
  if includes (message error) "website address does not seem to exist" ||
     includes (message error) "website took too long to load" ||
     includes (message error) "Could not capture a screenshot"
  then ret (res_status_json 400 (error_body (message error)))
  else ret (res_status_json 500
         (error_body "An unexpected error occurred. Please try again later.")).

End Handlers.

End Screenshot.

(** ** The first server of [src/unnamed/part_001] (lines 1-297) *)

Module ClassifyingServer.

Definition Unresolvable_message : string :=
  "This website address does not seem to exist. Please check the URL for typos.".
Definition Timeout_message : string :=
  "This website took too long to load. It might be down, very slow, or protected.".
Definition Blocked_message : string :=
  "Could not capture a screenshot. The website may be offline or blocking automated tools.".

Section Handlers.
Variable E : Env.

(** [getScreenshot], lines 197-227 *)
Definition getScreenshot (url : string) : Eff string :=
  try_catch
    (call (CaptureWebsite url) ;;;
     let* base64Image := await (captureWebsite_base64 E url) in
     ret base64Image)
    (fun error =>
       console_error [LS "Error making capture-website call:"; LS (message error)] ;;;
       if includes (message error) "ERR_NAME_NOT_RESOLVED" then
         throw (Error Unresolvable_message)
       else if includes (message error) "Navigation timeout" then
         throw (Error Timeout_message)
       else
         throw (Error Blocked_message)).

(** [app.post("/screenshot", limiter, ...)], lines 230-292: the handler. *)
Definition POST_screenshot (req : Request) : Eff Response :=
  console_log [LS "Received request with body:"; LJ (JObj (body req))] ;;;
  let url := assoc "url" (body req) in
  let* invalid := Screenshot.invalid_url E url in
  if invalid then ret (Screenshot.invalid_url_response url)
  else
    try_catch
      (let* base64Image := getScreenshot (as_string url) in
       console_log [LS "Image captured successfully."] ;;;
       let* analysisResult := Screenshot.analyzeImage E base64Image in
       console_log [LS "Analysis received:"; LS analysisResult] ;;;
       let* analysisObject := await (JSON_parse E analysisResult) in
       let finalResponse :=
         JObj [("analysis", analysisObject); ("screenshot", JStr base64Image)] in
       console_log [LS "Final response object created:"; LJ finalResponse] ;;;
       ret (res_status_json 200 finalResponse))
      Screenshot.on_error.

End Handlers.

(** The limiter of this server has no [skip]. *)
Definition limiter_options : RateLimit.Options :=
  {| RateLimit.windowMs := 15 * 60 * 1000;
     RateLimit.max := 3;
     RateLimit.message :=
       error_body "Are you trying to bankrupt me? Slow down!";
     RateLimit.skip := fun _ => false |}.

Definition app (E : Env) (req : Request) : RateLimit.Handler :=
  match method req, path req with
  | POST, [a] =>
      if String.eqb a "screenshot"
      then RateLimit.rateLimit limiter_options req (POST_screenshot E req)
      else RateLimit.run not_found
  | _, _ => RateLimit.run not_found
  end.

End ClassifyingServer.

(** ** [src/app.mjs] *)

Module AppMjs.

(** The answer to a URL that is not public. *)
Definition not_public : Response :=
  res_status_json 400 (error_body
    "The provided URL is not publicly accessible or is a private IP.").

Section Handlers.
Variable E : Env.

(** [isPublicUrl], lines 169-182 *)
Definition isPublicUrl (urlToTest : string) : Eff bool :=
  try_catch
    (let* hostname := await (URL_hostname E urlToTest) in
     call (DnsLookup hostname) ;;;
     let* address := await (dns_lookup E hostname) in
     let* addr := await (ipaddr_parse E address) in
     if negb (String.eqb (range addr) "unspecified") then
       if negb (String.eqb (range addr) "loopback") then
         let* private := await (isPrivate addr) in
         ret (negb private)
       else ret false
     else ret false)
    (fun error => ret false).

(** [getScreenshot], lines 236-252 *)
Definition getScreenshot (url : string) : Eff string :=
  try_catch
    (call (CaptureWebsite url) ;;;
     let* base64Image := await (captureWebsite_base64 E url) in
     ret base64Image)
    (fun error =>
       console_error [LS "Error making capture-website call:"; LS (message error)] ;;;
       throw (Error "Failed to capture screenshot with capture-website.")).

(** [app.get("/")] *)
Definition GET_root : Eff Response :=
  ret (res_status_json 200 (JObj [("status", JStr "ok")])).

(** [app.post("/screenshot", limiter, ...)], lines 258-332: the handler. *)
Definition POST_screenshot (req : Request) : Eff Response :=
  console_log [LS "Received request with body:"; LJ (JObj (body req))] ;;;
  let url := assoc "url" (body req) in
  let* invalid := Screenshot.invalid_url E url in
  if invalid then ret (Screenshot.invalid_url_response url)
  else
    let* isPublic := isPublicUrl (as_string url) in
    if negb isPublic then ret not_public
    else
      try_catch
        (let* base64Image := getScreenshot (as_string url) in
         console_log [LS "Image captured successfully."] ;;;
         let* analysisResult := Screenshot.analyzeImage E base64Image in
         let* analysisObject := await (JSON_parse E analysisResult) in
         let finalResponse :=
           JObj [("analysis", analysisObject); ("screenshot", JStr base64Image)] in
         let consoleResponse :=
           JObj [("url", JStr (as_string url)); ("analysis", analysisObject)] in
         console_log [LS "Final response object created:"; LJ consoleResponse] ;;;
         ret (res_status_json 200 finalResponse))
        Screenshot.on_error.

End Handlers.

Definition app (E : Env) (req : Request) : RateLimit.Handler :=
  match method req, path req with
  | GET, [] => RateLimit.run GET_root
  | POST, [a] =>
      if String.eqb a "screenshot"
      then limiter E req (POST_screenshot E req)
      else RateLimit.run not_found
  | _, _ => RateLimit.run not_found
  end.

End AppMjs.

(** * The schema of a critique *)

(** The JSON Schema keywords [roastSchema] uses. *)
Inductive schema : Type :=
| SInteger (minimum maximum : Z)
| SString
| SArray (items : schema)
| SObject (properties : list (string * schema)) (required : list string)
    (additionalProperties : bool).

Definition has_key (fields : list (string * json)) (k : string) : bool :=
  match assoc k fields with
  | Some _ => true
  | None => false
  end.

(** Conformance of a value to a schema. *)
Fixpoint validate (s : schema) (j : json) : bool :=
  match s, j with
  | SInteger lo hi, JInt n => (lo <=? n)%Z && (n <=? hi)%Z
  | SString, JStr _ => true
  | SArray items, JArr l => forallb (validate items) l
  | SObject properties required additionalProperties, JObj fields =>
      forallb (has_key fields) required &&
      (fix each (ps : list (string * schema)) : bool :=
         match ps with
         | [] => true
         | (k, s') :: ps' =>
             match assoc k fields with
             | Some v => validate s' v
             | None => true
             end && each ps'
         end) properties &&
      (additionalProperties ||
       forallb (fun kv => match assoc (fst kv) properties with
                          | Some _ => true
                          | None => false
                          end) fields)
  | _, _ => false
  end.

(** [roastSchema], lines 373-457 of [src/unnamed/part_001] (the same in
    [src/app.mjs]), without the [description] texts. *)
Definition roastSchema : schema :=
  SObject
    [("theVerdict", SInteger 1 100);
     ("mayhemMeter", SInteger 1 10);
     ("culpritProfile", SString);
     ("openingStatement", SString);
     ("caseFiles", SString);
     ("spiritAnimal", SString);
     ("rehabilitationProgram",
      SObject
        [("priorityOneDirective", SString);
         ("correctiveActions",
          SArray (SObject [("theOffense", SString); ("theRemedy", SString)]
                    ["theOffense"; "theRemedy"] false))]
        ["priorityOneDirective"; "correctiveActions"] false)]
    ["theVerdict"; "mayhemMeter"; "culpritProfile"; "openingStatement";
     "caseFiles"; "spiritAnimal"; "rehabilitationProgram"]
    false.

Definition correctiveActions_of (j : json) : option (list json) :=
  match j with
  | JObj fields =>
      match assoc "rehabilitationProgram" fields with
      | Some (JObj program) =>
          match assoc "correctiveActions" program with
          | Some (JArr l) => Some l
          | _ => None
          end
      | _ => None
      end
  | _ => None
  end.

(** The CritiqueResult of the specification, in its words: every field
    mandatory and of its type, no unknown field, [verdict] an integer in
    1..100, [mayhemMeter] an integer in 1..10, at least four corrective
    actions. *)
Definition CritiqueResult (j : json) : bool :=
  validate roastSchema j &&
  match correctiveActions_of j with
  | Some l => Nat.leb 4 (length l)
  | None => false
  end.

(** * The join of upload and analysis *)

(** [await Promise.all([upload, analyzeImage(..)])] inside the [try] of
    [POST /roast], lines 682-692 and 722-725, event by event: each of the two
    promises settles at some time of its own, [Promise.all] settles as soon as
    one input rejects or the last input fulfils, and the handler resumes,
    or its [catch] runs, once [Promise.all] has settled. *)
Module Join.

Inductive promise (A : Type) : Type :=
| Pending
| Fulfilled (v : A)
| Rejected (e : JsError).
Arguments Pending {A}.
Arguments Fulfilled {A} v.
Arguments Rejected {A} e.

Inductive handler_state : Type :=
| Awaiting
| Resumed (uploadResult : UploadResult) (analysisResult : string)
| Caught (error : JsError).

Record state : Type := {
  upload_p : promise UploadResult;
  analysis_p : promise string;
  all_p : promise (UploadResult * string);
  handler : handler_state;
}.

(** Both operations started, the handler at its [await]. *)
Definition initial : state :=
  {| upload_p := Pending; analysis_p := Pending; all_p := Pending;
     handler := Awaiting |}.

Inductive event : Type :=
| UploadSettles (o : Outcome UploadResult)
| AnalysisSettles (o : Outcome string)
| HandlerRuns.

Definition settle {A : Type} (o : Outcome A) : promise A :=
  match o with
  | Return v => Fulfilled v
  | Throw e => Rejected e
  end.

(** [Promise.all] after one of its inputs has settled. *)
Definition all_of (u : promise UploadResult) (a : promise string)
    (just_rejected : option JsError) (all : promise (UploadResult * string))
    : promise (UploadResult * string) :=
  match all with
  | Pending =>
      match just_rejected with
      | Some e => Rejected e
      | None =>
          match u, a with
          | Fulfilled r, Fulfilled s => Fulfilled (r, s)
          | _, _ => Pending
          end
      end
  | settled => settled
  end.

Definition rejection {A : Type} (o : Outcome A) : option JsError :=
  match o with
  | Return _ => None
  | Throw e => Some e
  end.

(** One event; [None] when the event cannot happen in the state. *)
Definition step (s : state) (ev : event) : option state :=
  match ev with
  | UploadSettles o =>
      match upload_p s with
      | Pending =>
          Some {| upload_p := settle o; analysis_p := analysis_p s;
                  all_p := all_of (settle o) (analysis_p s) (rejection o) (all_p s);
                  handler := handler s |}
      | _ => None
      end
  | AnalysisSettles o =>
      match analysis_p s with
      | Pending =>
          Some {| upload_p := upload_p s; analysis_p := settle o;
                  all_p := all_of (upload_p s) (settle o) (rejection o) (all_p s);
                  handler := handler s |}
      | _ => None
      end
  | HandlerRuns =>
      match handler s, all_p s with
      | Awaiting, Fulfilled (r, a) =>
          Some {| upload_p := upload_p s; analysis_p := analysis_p s;
                  all_p := all_p s; handler := Resumed r a |}
      | Awaiting, Rejected e =>
          Some {| upload_p := upload_p s; analysis_p := analysis_p s;
                  all_p := all_p s; handler := Caught e |}
      | _, _ => None
      end
  end.

Inductive reachable : state -> Prop :=
| reach_initial : reachable initial
| reach_step s ev s' : reachable s -> step s ev = Some s' -> reachable s'.

(** The request has failed: the [catch] of the route has run. *)
Definition failed (s : state) : bool :=
  match handler s with
  | Caught _ => true
  | _ => false
  end.

Definition pending {A : Type} (p : promise A) : bool :=
  match p with
  | Pending => true
  | _ => false
  end.

End Join.

(** * A concrete outside world, for examples *)

Module Demo.

Definition loopback_url : string := "http://127.0.0.1".
Definition visitor : string := "123e4567-e89b-42d3-a456-426614174000".

Definition syntax_error : JsError := Error "Unexpected token in JSON".

Definition provider_error : JsError :=
  {| message := "429 You exceeded your current quota";
     response := Some {| status_of := 429;
                         data_of := JObj [("error", JStr "insufficient_quota")];
                         headers_of := "x-request-id: req_1" |} |}.

(** [String.prototype.trim] in the example worlds: the built-in on ASCII
    strings, where the white space is U+0009 to U+000D and U+0020. *)
Definition is_space (c : ascii) : bool :=
  let n := nat_of_ascii c in
  Nat.eqb n 32 || (Nat.leb 9 n && Nat.leb n 13).

Fixpoint trimStart (s : string) : string :=
  match s with
  | EmptyString => EmptyString
  | String c s' => if is_space c then trimStart s' else s
  end.

Fixpoint trimEnd (s : string) : string :=
  match s with
  | EmptyString => EmptyString
  | String c s' =>
      match trimEnd s' with
      | EmptyString => if is_space c then EmptyString else String c EmptyString
      | t => String c t
      end
  end.

Definition trim (s : string) : string := trimEnd (trimStart s).

Definition env (f : FetchResult) (u : Outcome UploadResult)
    (a : Outcome string) (i : option JsError) : Env :=
  {| isURL := fun s => String.prefix "http://" s || String.prefix "https://" s;
     isUUID := fun s => Nat.eqb (String.length s) 36;
     URL_hostname := fun s =>
       if String.eqb s loopback_url then Return "127.0.0.1"
       else Return "example.com";
     dns_lookup := fun h =>
       if String.eqb h "127.0.0.1" then Return "127.0.0.1"
       else Return "93.184.216.34";
     ipaddr_parse := fun a =>
       if String.eqb a "127.0.0.1"
       then Return {| range := "loopback"; isPrivate := Return false |}
       else Return {| range := "unicast"; isPrivate := Return false |};
     captureWebsite_base64 := fun _ =>
       Throw (Error "Navigation timeout of 30000 ms exceeded");
     apiFlashKey := Some "key";
     RATE_LIMIT_WHITELIST := Some "10.0.0.1, 10.0.0.2";
     String_trim := trim;
     encodeURIComponent := fun s => s;
     fetch := fun _ => f;
     sharp_resize_webp := fun b => Return b;
     randomUUID := "6f1c2a9e-5b7d-4c3a-9e2f-0a1b2c3d4e5f";
     toString_base64 := fun b => b;
     openai_create := fun _ => a;
     JSON_parse := fun s =>
       if String.eqb s "{}" then Return (JObj [])
       else if String.eqb s "null" then Return JNull
       else Throw syntax_error;
     storage_upload := fun p _ =>
       match u with
       | Return (UploadData _) => Return (UploadData p)
       | o => o
       end;
     upload_settles_first := true;
     getPublicUrl := fun p => "https://storage.example/" +:+ p;
     insert_error := fun _ => i;
     select_error := None |}.

Definition image : FetchResult := FetchResponse true "" "RIFFWEBP".
Definition uploaded : Outcome UploadResult := Return (UploadData "").

Definition empty_world : World :=
  {| calls := []; console := []; bucket := []; roasts := [] |}.

Definition roast_request (u : string) : Request :=
  {| method := POST; path := ["roast"]; ip := "203.0.113.7"; time := 0;
     body := [("url", JStr u)] |}.

(** A URL of 2059 characters. *)
Definition long_url : string :=
  "http://example.com/" +:+ string_of_list_ascii (repeat "a"%char 2040).

Definition insert_failure : JsError :=
  Error "duplicate key value violates unique constraint".

(** Everything answers; the provider's content is the text of an empty
    object. *)
Definition all_succeed : Env := env image uploaded (Return "{}") None.

(** Upload and analysis succeed, the insert fails. *)
Definition insert_fails : Env :=
  env image uploaded (Return "{}") (Some insert_failure).

(** The provider answers with an error. *)
Definition provider_fails : Env :=
  env image uploaded (Throw provider_error) None.

(** APIFlash answers, but not with an image. *)
Definition capture_fails : Env :=
  env (FetchResponse false "Navigation timeout" "") uploaded (Return "{}") None.

(** The row [POST /roast] commits in [all_succeed]. *)
Definition empty_critique_row : Row :=
  {| id := "6f1c2a9e-5b7d-4c3a-9e2f-0a1b2c3d4e5f";
     url := "https://example.com";
     roast_json := JObj [];
     screenshot_url :=
       "https://storage.example/public/6f1c2a9e-5b7d-4c3a-9e2f-0a1b2c3d4e5f.webp";
     visitor_id := JNull;
     created_at := 0 |}.

(** The analysis has rejected and the [catch] has run; the upload is still
    on its way. *)
Definition analysis_rejected_first : Join.state :=
  {| Join.upload_p := Join.Pending;
     Join.analysis_p := Join.Rejected provider_error;
     Join.all_p := Join.Rejected provider_error;
     Join.handler := Join.Caught provider_error |}.

(** The upload has resolved with [{ error }]; the analysis is on its way. *)
Definition upload_failed_first : Join.state :=
  {| Join.upload_p := Join.Fulfilled (UploadError insert_failure);
     Join.analysis_p := Join.Pending;
     Join.all_p := Join.Pending;
     Join.handler := Join.Awaiting |}.

Definition client : string := "203.0.113.7".

(** A client that has used up its window. *)
Definition exhausted : RateLimit.AppState :=
  {| RateLimit.hits :=
       {[ client := {| RateLimit.totalHits := 5; RateLimit.resetTime := 900000 |} ]};
     RateLimit.world := empty_world |}.

Definition fresh : RateLimit.AppState :=
  {| RateLimit.hits := ∅; RateLimit.world := empty_world |}.

Definition get (p : list string) : Request :=
  {| method := GET; path := p; ip := client; time := 1000; body := [] |}.

Definition roast_at (t : Z) : Request :=
  {| method := POST; path := ["roast"]; ip := client; time := t;
     body := [("url", JStr "https://example.com")] |}.

End Demo.


(** * More examples of the outside world *)

Module Examples.

(** [E] with another capture-website. *)
Definition with_capture (E : Env) (c : string -> Outcome string) : Env :=
  {| isURL := isURL E;
     isUUID := isUUID E;
     URL_hostname := URL_hostname E;
     dns_lookup := dns_lookup E;
     ipaddr_parse := ipaddr_parse E;
     captureWebsite_base64 := c;
     apiFlashKey := apiFlashKey E;
     RATE_LIMIT_WHITELIST := RATE_LIMIT_WHITELIST E;
     String_trim := String_trim E;
     encodeURIComponent := encodeURIComponent E;
     fetch := fetch E;
     sharp_resize_webp := sharp_resize_webp E;
     randomUUID := randomUUID E;
     toString_base64 := toString_base64 E;
     openai_create := openai_create E;
     JSON_parse := JSON_parse E;
     storage_upload := storage_upload E;
     upload_settles_first := upload_settles_first E;
     getPublicUrl := getPublicUrl E;
     insert_error := insert_error E;
     select_error := select_error E |}.

(** [E] without [APIFLASH_API_KEY]. *)
Definition without_key (E : Env) : Env :=
  {| isURL := isURL E;
     isUUID := isUUID E;
     URL_hostname := URL_hostname E;
     dns_lookup := dns_lookup E;
     ipaddr_parse := ipaddr_parse E;
     captureWebsite_base64 := captureWebsite_base64 E;
     apiFlashKey := None;
     RATE_LIMIT_WHITELIST := RATE_LIMIT_WHITELIST E;
     String_trim := String_trim E;
     encodeURIComponent := encodeURIComponent E;
     fetch := fetch E;
     sharp_resize_webp := sharp_resize_webp E;
     randomUUID := randomUUID E;
     toString_base64 := toString_base64 E;
     openai_create := openai_create E;
     JSON_parse := JSON_parse E;
     storage_upload := storage_upload E;
     upload_settles_first := upload_settles_first E;
     getPublicUrl := getPublicUrl E;
     insert_error := insert_error E;
     select_error := select_error E |}.

(** [E] with another ipaddr.js. *)
Definition with_ipaddr (E : Env) (p : string -> Outcome IpAddr) : Env :=
  {| isURL := isURL E;
     isUUID := isUUID E;
     URL_hostname := URL_hostname E;
     dns_lookup := dns_lookup E;
     ipaddr_parse := p;
     captureWebsite_base64 := captureWebsite_base64 E;
     apiFlashKey := apiFlashKey E;
     RATE_LIMIT_WHITELIST := RATE_LIMIT_WHITELIST E;
     String_trim := String_trim E;
     encodeURIComponent := encodeURIComponent E;
     fetch := fetch E;
     sharp_resize_webp := sharp_resize_webp E;
     randomUUID := randomUUID E;
     toString_base64 := toString_base64 E;
     openai_create := openai_create E;
     JSON_parse := JSON_parse E;
     storage_upload := storage_upload E;
     upload_settles_first := upload_settles_first E;
     getPublicUrl := getPublicUrl E;
     insert_error := insert_error E;
     select_error := select_error E |}.

(** The addresses of ipaddr.js have no method [isPrivate]: the call
    [addr.isPrivate()] throws a TypeError. *)
Definition no_isPrivate : Env :=
  with_ipaddr Demo.all_succeed (fun _ =>
    Return {| range := "unicast";
              isPrivate := Throw (Error "addr.isPrivate is not a function") |}).

(** capture-website gives an image; everything else as in
    [Demo.all_succeed]. *)
Definition captures : Env :=
  with_capture Demo.all_succeed (fun _ => Return "aW1hZ2U=").

(** capture-website gives an image, the provider answers with an error. *)
Definition captures_provider_fails : Env :=
  with_capture Demo.provider_fails (fun _ => Return "aW1hZ2U=").

Definition no_key : Env := without_key Demo.all_succeed.

Definition request (b : list (string * json)) : Request :=
  {| method := POST; path := ["roast"]; ip := Demo.client; time := 0; body := b |}.

Definition site : string := "https://example.com".

(** A table with four roasts: two of [Demo.visitor], the older one first,
    one of another visitor and one of nobody. *)
Definition roast (i : string) (v : json) (t : Z) : Row :=
  {| id := i; url := site; roast_json := JObj [];
     screenshot_url := "https://storage.example/public/" +:+ i +:+ ".webp";
     visitor_id := v; created_at := t |}.

Definition other_visitor : string := "9b2d7c1e-3f4a-4b5c-8d6e-7f8091a2b3c4".

Definition table : World :=
  {| calls := []; console := []; bucket := [];
     roasts := [roast "a" (JStr Demo.visitor) 10;
                roast "b" (JStr other_visitor) 20;
                roast "c" (JStr Demo.visitor) 30;
                roast "d" JNull 40] |}.

(** The address [example.com] resolves to in the examples. *)
Definition public_address : IpAddr :=
  {| range := "unicast"; isPrivate := Return false |}.

End Examples.

(** * Notions the statements use *)

(** The message [ClassifyingServer.getScreenshot] throws for a
    capture-website error. *)
Definition classified (e : JsError) : string :=
  if includes (message e) "ERR_NAME_NOT_RESOLVED"
  then ClassifyingServer.Unresolvable_message
  else if includes (message e) "Navigation timeout"
       then ClassifyingServer.Timeout_message
       else ClassifyingServer.Blocked_message.

(** Newest first. *)
Definition newer_or_same (r r' : Row) : Prop := created_at r' <= created_at r.

(** The request went through the limiter: the rest of the route ran on the
    world, and its answer, status and body, is the answer of the server. *)
Definition admitted (E : Env) (req : Request) (next : Eff Response)
    (st : RateLimit.AppState) : Prop :=
  RateLimit.world (snd (limiter E req next st)) = snd (next (RateLimit.world st)) /\
  match fst (limiter E req next st), fst (next (RateLimit.world st)) with
  | Return r, Return r' => status r = status r' /\ json_body r = json_body r'
  | Throw e, Throw e' => e = e'
  | _, _ => False
  end.

(** The limiter answered in the place of the route, which did not run: the
    world is as it was. *)
Definition rejected (E : Env) (req : Request) (next : Eff Response)
    (st : RateLimit.AppState) (remaining reset : Z) : Prop :=
  RateLimit.world (snd (limiter E req next st)) = RateLimit.world st /\
  fst (limiter E req next st)
  = Return {| status := 429;
              headers := [("RateLimit-Limit", 3);
                          ("RateLimit-Remaining", remaining);
                          ("RateLimit-Reset", reset)];
              json_body := error_body "Are you trying to bankrupt me? Slow down!" |}.

(** The requests [rs] go through the limiter one after the other, each in
    front of its own route. *)
Definition serve (E : Env) (next : Request -> Eff Response) (rs : list Request)
    (st : RateLimit.AppState) : RateLimit.AppState :=
  foldl (fun st r => snd (limiter E r (next r) st)) st rs.

(** The requests of one client address among [rs]. *)
Definition of_client (client : string) (rs : list Request) : list Request :=
  List.filter (fun r => String.eqb (ip r) client) rs.

(** What holds of every state of the join. *)
Definition join_inv (s : Join.state) : Prop :=
  (forall r a, Join.all_p s = Join.Fulfilled (r, a) ->
     Join.upload_p s = Join.Fulfilled r /\ Join.analysis_p s = Join.Fulfilled a) /\
  (forall e, Join.all_p s = Join.Rejected e ->
     Join.upload_p s = Join.Rejected e \/ Join.analysis_p s = Join.Rejected e) /\
  (forall r a, Join.handler s = Join.Resumed r a ->
     Join.all_p s = Join.Fulfilled (r, a)) /\
  (forall e, Join.handler s = Join.Caught e -> Join.all_p s = Join.Rejected e).

(** No input of the join has rejected. *)
Definition none_rejected (s : Join.state) : Prop :=
  (forall e, Join.upload_p s <> Join.Rejected e) /\
  (forall e, Join.analysis_p s <> Join.Rejected e).

(** While no input has rejected, [Promise.all] is pending until both have
    fulfilled; while [Promise.all] is pending, the handler is at its
    [await]. *)
Definition join_open (s : Join.state) : Prop :=
  (none_rejected s ->
   Join.all_p s
   = Join.all_of (Join.upload_p s) (Join.analysis_p s) None Join.Pending) /\
  (Join.all_p s = Join.Pending -> Join.handler s = Join.Awaiting).

(** What the handler sees of [Promise_all]'s result. *)
Definition seen (o : Outcome (UploadResult * string)) : Join.handler_state :=
  match o with
  | Return (r, a) => Join.Resumed r a
  | Throw e => Join.Caught e
  end.

(** Both operations settle, in one order or the other, and the handler runs. *)
Definition settle_both (upload_first : bool) (ou : Outcome UploadResult)
    (oa : Outcome string) : option Join.state :=
  let evs :=
    if upload_first
    then [Join.UploadSettles ou; Join.AnalysisSettles oa; Join.HandlerRuns]
    else [Join.AnalysisSettles oa; Join.UploadSettles ou; Join.HandlerRuns] in
  foldl (fun s ev => s ≫= fun s => Join.step s ev) (Some Join.initial) evs.

(** The gate of [src/app.mjs] lets the URL through. *)
Definition passes_gate (E : Env) (u : string) : Prop :=
  exists hostname address addr,
    URL_hostname E u = Return hostname /\
    dns_lookup E hostname = Return address /\
    ipaddr_parse E address = Return addr /\
    range addr <> "unspecified" /\ range addr <> "loopback" /\
    isPrivate addr = Return false.

(** * Tactics *)

Ltac eff_unfold :=
  unfold RoastServer.POST_roast, RoastServer.commit,
    RoastServer.getScreenshotFromAPI,
    RoastServer.analyzeImage, RoastServer.upload, RoastServer.db_insert,
    RoastServer.db_select, Promise_all, validURL,
    bind, ret, throw, try_catch, await, call, console_log, console_error in *.

(** Case analysis on the innermost answer of the outside world the goal
    still waits for. *)
Ltac oracle_case :=
  match goal with
  | |- context [match ?x with _ => _ end] =>
      lazymatch x with
      | context [match _ with _ => _ end] => fail
      | _ => destruct x eqn:?
      end
  end.

Ltac oracle_cases :=
  repeat (oracle_case;
          cbn [fst snd add_call add_line add_object add_row
               calls console bucket roasts]).

(** [x] is one of the elements listed in front of a list. *)
Ltac in_list :=
  repeat first [apply list_elem_of_here | apply list_elem_of_further].

(** [H : x ∈ c1 :: .. :: cn :: l] with [x] none of the [ci] gives [x ∈ l]. *)
Ltac not_new H :=
  repeat (apply elem_of_cons in H as [H | H]; [discriminate H |]); exact H.

(** What [join_inv] says of a state whose components are known. *)
Ltac use_join_inv :=
  repeat match goal with
    | H : forall r a, _ = Join.Fulfilled (r, a) -> _ |- _ =>
        first [specialize (H _ _ eq_refl) | clear H]
    | H : forall e, _ = Join.Rejected e -> _ |- _ =>
        first [specialize (H _ eq_refl) | clear H]
    | H : forall r a, _ = Join.Resumed r a -> _ |- _ =>
        first [specialize (H _ _ eq_refl) | clear H]
    | H : forall e, _ = Join.Caught e -> _ |- _ =>
        first [specialize (H _ eq_refl) | clear H]
    end.

Ltac close_join_inv :=
  unfold join_inv; cbn; (split; [| split; [| split]]); intros;
  intuition (first [discriminate | congruence]).

(** * Proofs *)

Lemma truthy_string (u : string) : u <> "" -> truthy (Some (JStr u)) = true.
Proof.
  intros H. simpl. destruct (String.eqb_spec u ""); [contradiction | reflexivity].
Qed.

Lemma cons_neq {A : Type} (x : A) (l : list A) : l <> x :: l.
Proof. intros H. apply (f_equal length) in H. cbn in H. lia. Qed.

(** ** [POST /roast]: what stands between the request and the capture *)

(** A request whose [url] is a non-empty string that validator.js accepts
    reaches APIFlash: the handler looks at nothing else. *)
Lemma POST_roast_valid_url_captures E req w u key :
  assoc "url" (body req) = Some (JStr u) ->
  u <> "" ->
  isURL E u = true ->
  apiFlashKey E = Some key ->
  key <> "" ->
  ApiFlashFetch (RoastServer.apiUrl_of E key u)
    ∈ calls (snd (RoastServer.POST_roast E req w)) /\
  (forall h, DnsLookup h ∈ calls (snd (RoastServer.POST_roast E req w)) ->
             DnsLookup h ∈ calls w) /\
  exists res, fst (RoastServer.POST_roast E req w) = Return res /\
              (status res = 200 \/ status res = 500).
Proof.
  intros Hurl Hu Hvalid Hkey Hk.
  eff_unfold. rewrite Hurl, (truthy_string u Hu). cbn [negb validURL as_string].
  unfold ret. rewrite Hvalid, Hkey. cbn [negb].
  destruct key as [|c key]; [contradiction|].
  oracle_cases.
  all: split; [in_list | split; [intros h Hh; not_new Hh |]].
  all: eexists; split; [reflexivity | cbn; auto].
Qed.

(** C1 (the code at the failing input): [POST /roast] has no gate on the
    address the URL resolves to.  For a URL that validator.js accepts and
    whose hostname resolves to a loopback address, the handler makes no DNS
    lookup, asks APIFlash for the capture, and never answers with the
    rejection "not publicly accessible": its answer is 200 or 500. *)
Theorem POST_roast_has_no_privacy_gate E req w u key hostname address addr :
  assoc "url" (body req) = Some (JStr u) ->
  u <> "" ->
  isURL E u = true ->
  apiFlashKey E = Some key ->
  key <> "" ->
  URL_hostname E u = Return hostname ->
  dns_lookup E hostname = Return address ->
  ipaddr_parse E address = Return addr ->
  range addr = "loopback" ->
  ApiFlashFetch (RoastServer.apiUrl_of E key u)
    ∈ calls (snd (RoastServer.POST_roast E req w)) /\
  (DnsLookup hostname ∈ calls (snd (RoastServer.POST_roast E req w)) ->
   DnsLookup hostname ∈ calls w) /\
  fst (RoastServer.POST_roast E req w) <> Return AppMjs.not_public.
Proof.
  intros Hurl Hu Hvalid Hkey Hk _ _ _ _.
  destruct (POST_roast_valid_url_captures E req w u key Hurl Hu Hvalid Hkey Hk)
    as (Hcall & Hdns & res & Hres & Hstatus).
  split; [exact Hcall | split; [apply Hdns |]].
  rewrite Hres. intros [= ->]. cbn in Hstatus. lia.
Qed.

Lemma POST_roast_has_no_privacy_gate_witness :
  ApiFlashFetch (RoastServer.apiUrl_of Demo.all_succeed "key" Demo.loopback_url)
    ∈ calls (snd (RoastServer.POST_roast Demo.all_succeed
                    (Demo.roast_request Demo.loopback_url) Demo.empty_world)) /\
  (DnsLookup "127.0.0.1"
     ∈ calls (snd (RoastServer.POST_roast Demo.all_succeed
                     (Demo.roast_request Demo.loopback_url) Demo.empty_world)) ->
   DnsLookup "127.0.0.1" ∈ calls Demo.empty_world) /\
  fst (RoastServer.POST_roast Demo.all_succeed
         (Demo.roast_request Demo.loopback_url) Demo.empty_world)
    <> Return AppMjs.not_public.
Proof.
  apply (POST_roast_has_no_privacy_gate Demo.all_succeed
           (Demo.roast_request Demo.loopback_url) Demo.empty_world
           Demo.loopback_url "key" "127.0.0.1" "127.0.0.1"
           {| range := "loopback"; isPrivate := Return false |});
    first [reflexivity | discriminate].
Defined.

(** C6 (the code at the failing input): [POST /roast] has no gate on the
    length of the URL.  A URL of more than 2048 characters that validator.js
    accepts is not rejected: APIFlash is asked for the capture and the
    answer is 200 or 500, never 400. *)
Theorem POST_roast_has_no_length_gate E req w u key :
  assoc "url" (body req) = Some (JStr u) ->
  (2048 < String.length u)%nat ->
  isURL E u = true ->
  apiFlashKey E = Some key ->
  key <> "" ->
  ApiFlashFetch (RoastServer.apiUrl_of E key u)
    ∈ calls (snd (RoastServer.POST_roast E req w)) /\
  exists res, fst (RoastServer.POST_roast E req w) = Return res /\
              (status res = 200 \/ status res = 500).
Proof.
  intros Hurl Hlen Hvalid Hkey Hk.
  assert (Hu : u <> "") by (intros ->; cbn in Hlen; lia).
  destruct (POST_roast_valid_url_captures E req w u key Hurl Hu Hvalid Hkey Hk)
    as (Hcall & _ & Hres).
  split; assumption.
Qed.

Lemma POST_roast_has_no_length_gate_witness :
  ApiFlashFetch (RoastServer.apiUrl_of Demo.all_succeed "key" Demo.long_url)
    ∈ calls (snd (RoastServer.POST_roast Demo.all_succeed
                    (Demo.roast_request Demo.long_url) Demo.empty_world)) /\
  exists res,
    fst (RoastServer.POST_roast Demo.all_succeed
           (Demo.roast_request Demo.long_url) Demo.empty_world) = Return res /\
    (status res = 200 \/ status res = 500).
Proof.
  apply (POST_roast_has_no_length_gate Demo.all_succeed
           (Demo.roast_request Demo.long_url) Demo.empty_world
           Demo.long_url "key").
  - reflexivity.
  - vm_compute. lia.
  - reflexivity.
  - reflexivity.
  - discriminate.
Defined.

(** What the handler does check: an empty [url], or one validator.js does
    not accept, is answered with 400 and no call leaves the server. *)
Theorem POST_roast_rejects_invalid_url E req w u :
  assoc "url" (body req) = Some (JStr u) ->
  u = "" \/ isURL E u = false ->
  fst (RoastServer.POST_roast E req w)
  = Return (res_status_json 400 (error_body "A valid URL is required.")) /\
  calls (snd (RoastServer.POST_roast E req w)) = calls w.
Proof.
  intros Hurl H. eff_unfold. rewrite Hurl.
  destruct (String.eqb_spec u "") as [-> | Hu]; [split; reflexivity |].
  destruct H as [H | H]; [contradiction |].
  rewrite (truthy_string u Hu). cbn [negb validURL]. unfold ret. rewrite H.
  split; reflexivity.
Qed.

Lemma POST_roast_rejects_invalid_url_witness :
  fst (RoastServer.POST_roast Demo.all_succeed
         (Demo.roast_request "ftp://example.com") Demo.empty_world)
  = Return (res_status_json 400 (error_body "A valid URL is required.")) /\
  calls (snd (RoastServer.POST_roast Demo.all_succeed
                (Demo.roast_request "ftp://example.com") Demo.empty_world))
  = calls Demo.empty_world.
Proof.
  apply (POST_roast_rejects_invalid_url Demo.all_succeed
           (Demo.roast_request "ftp://example.com") Demo.empty_world
           "ftp://example.com").
  - reflexivity.
  - right. reflexivity.
Defined.

(** C4 (the code at the failing input): when APIFlash gives no image, because
    [fetch] rejects or the response is not [ok], [POST /roast] answers 500
    with the generic message, not 400 with the message of a timeout; no row
    is written. *)
Theorem POST_roast_capture_failure_is_500 E req w u key :
  assoc "url" (body req) = Some (JStr u) ->
  u <> "" ->
  isURL E u = true ->
  apiFlashKey E = Some key ->
  key <> "" ->
  RoastServer.fetch_fails (fetch E (RoastServer.apiUrl_of E key u)) = true ->
  fst (RoastServer.POST_roast E req w) = Return RoastServer.unexpected_error /\
  fst (RoastServer.POST_roast E req w)
    <> Return (res_status_json 400 (error_body ClassifyingServer.Timeout_message)) /\
  roasts (snd (RoastServer.POST_roast E req w)) = roasts w.
Proof.
  intros Hurl Hu Hvalid Hkey Hk Hfetch.
  eff_unfold. rewrite Hurl, (truthy_string u Hu). cbn [negb validURL as_string].
  unfold ret. rewrite Hvalid, Hkey. cbn [negb].
  destruct key as [|c key]; [contradiction|].
  destruct (fetch E _) as [e | [] text buf]; try discriminate Hfetch.
  all: cbn; repeat split; discriminate.
Qed.

Lemma POST_roast_capture_failure_is_500_witness :
  fst (RoastServer.POST_roast Demo.capture_fails
         (Demo.roast_request "https://example.com") Demo.empty_world)
  = Return RoastServer.unexpected_error /\
  fst (RoastServer.POST_roast Demo.capture_fails
         (Demo.roast_request "https://example.com") Demo.empty_world)
    <> Return (res_status_json 400 (error_body ClassifyingServer.Timeout_message)) /\
  roasts (snd (RoastServer.POST_roast Demo.capture_fails
                 (Demo.roast_request "https://example.com") Demo.empty_world))
  = roasts Demo.empty_world.
Proof.
  apply (POST_roast_capture_failure_is_500 Demo.capture_fails
           (Demo.roast_request "https://example.com") Demo.empty_world
           "https://example.com" "key");
    first [reflexivity | discriminate].
Defined.

(** ** The commit: upload, analysis, insert *)

(** C2 (counterexample): in [Demo.insert_fails] the upload succeeds and the
    analysis succeeds, the content decodes, and yet the commit throws the
    error of the insert and the table is as it was: a success of both
    operations does not give a record. *)
Lemma commit_insert_failure_leaves_no_record :
  storage_upload Demo.insert_fails
    ("public/" +:+ randomUUID Demo.insert_fails +:+ ".webp") "RIFFWEBP"
  = Return (UploadData "public/6f1c2a9e-5b7d-4c3a-9e2f-0a1b2c3d4e5f.webp") /\
  fst (RoastServer.analyzeImage Demo.insert_fails "RIFFWEBP" Demo.empty_world)
  = Return "{}" /\
  JSON_parse Demo.insert_fails "{}" = Return (JObj []) /\
  fst (RoastServer.commit Demo.insert_fails
         (Demo.roast_request "https://example.com") "https://example.com"
         None "RIFFWEBP" Demo.empty_world)
  = Throw Demo.insert_failure /\
  roasts (snd (RoastServer.commit Demo.insert_fails
                 (Demo.roast_request "https://example.com") "https://example.com"
                 None "RIFFWEBP" Demo.empty_world))
  = roasts Demo.empty_world.
Proof. repeat split. Qed.

(** C2 (amended): a commit adds a row to the table if and only if the upload
    succeeds, the analysis succeeds, its content decodes as JSON and the
    insert itself succeeds; it adds at most one row; and when the upload
    succeeds but the analysis fails, or the analysis succeeds but the upload
    does not, the table is unchanged. *)
Theorem commit_inserts_iff E req u v img w :
  let path := "public/" +:+ randomUUID E +:+ ".webp" in
  let imageUrl := "data:image/png;base64," +:+ toString_base64 E img in
  let w' := snd (RoastServer.commit E req u v img w) in
  ((exists row, roasts w' = row :: roasts w) <->
   (exists p content j,
      storage_upload E path img = Return (UploadData p) /\
      openai_create E imageUrl = Return content /\
      JSON_parse E content = Return j /\
      insert_error E
        (RoastServer.roast_row req (randomUUID E) u j (getPublicUrl E p) v) = None)) /\
  (roasts w' = roasts w \/ exists row, roasts w' = row :: roasts w) /\
  (forall p e, storage_upload E path img = Return (UploadData p) ->
               openai_create E imageUrl = Throw e -> roasts w' = roasts w) /\
  (forall content, openai_create E imageUrl = Return content ->
                   (forall p, storage_upload E path img <> Return (UploadData p)) ->
                   roasts w' = roasts w).
Proof.
  cbv zeta. eff_unfold. oracle_cases.
  all: split;
    [split; [intros [row Hrow]
            | intros (p' & content' & j' & H1 & H2 & H3 & H4)]
    | split; [| split]].
  all: try (exfalso; apply (cons_neq _ _ Hrow)).
  all: try congruence.
  all: try (left; reflexivity).
  all: eauto 10.
  all: try (intros p' e' H1 H2; first [reflexivity | congruence]).
  all: try (intros content' H1 H2;
            first [reflexivity | exfalso; eapply H2; eassumption]).
Qed.

(** C3 (counterexample): the provider answers with the text of an empty
    object; [POST /roast] answers 200 and the row it has written carries the
    empty object as its critique, which is no CritiqueResult. *)
Lemma unvalidated_critique_is_committed :
  fst (RoastServer.POST_roast Demo.all_succeed
         (Demo.roast_request "https://example.com") Demo.empty_world)
  = Return (res_status_json 200 (RoastServer.row_json Demo.empty_critique_row)) /\
  roasts (snd (RoastServer.POST_roast Demo.all_succeed
                 (Demo.roast_request "https://example.com") Demo.empty_world))
  = [Demo.empty_critique_row] /\
  CritiqueResult (roast_json Demo.empty_critique_row) = false.
Proof. repeat split. Qed.

(** C3 (amended): the critique of a committed row is the value the provider's
    content decodes to, as it is: the handler asks for the schema with
    [strict: true] and checks nothing itself, so the critique is a
    CritiqueResult exactly when the decoded content is one. *)
Theorem committed_critique_is_decoded_content E req u v img w res :
  fst (RoastServer.commit E req u v img w) = Return res ->
  exists row content,
    roasts (snd (RoastServer.commit E req u v img w)) = row :: roasts w /\
    res = res_status_json 200 (RoastServer.row_json row) /\
    id row = randomUUID E /\
    openai_create E ("data:image/png;base64," +:+ toString_base64 E img)
      = Return content /\
    JSON_parse E content = Return (roast_json row) /\
    (forall j, JSON_parse E content = Return j ->
               CritiqueResult (roast_json row) = CritiqueResult j).
Proof.
  eff_unfold. oracle_cases; intros [= <-].
  eexists _, _. repeat split; try eassumption.
  intros j Hj. cbn. congruence.
Qed.

Lemma committed_critique_is_decoded_content_witness :
  exists row content,
    roasts (snd (RoastServer.commit Demo.all_succeed
                   (Demo.roast_request "https://example.com")
                   "https://example.com" None "RIFFWEBP" Demo.empty_world))
    = row :: roasts Demo.empty_world /\
    res_status_json 200 (RoastServer.row_json Demo.empty_critique_row)
    = res_status_json 200 (RoastServer.row_json row) /\
    id row = randomUUID Demo.all_succeed /\
    openai_create Demo.all_succeed
      ("data:image/png;base64," +:+ toString_base64 Demo.all_succeed "RIFFWEBP")
      = Return content /\
    JSON_parse Demo.all_succeed content = Return (roast_json row) /\
    (forall j, JSON_parse Demo.all_succeed content = Return j ->
               CritiqueResult (roast_json row) = CritiqueResult j).
Proof.
  apply (committed_critique_is_decoded_content Demo.all_succeed
           (Demo.roast_request "https://example.com") "https://example.com"
           None "RIFFWEBP" Demo.empty_world
           (res_status_json 200 (RoastServer.row_json Demo.empty_critique_row))).
  reflexivity.
Defined.

(** ** A generation that fails *)




(** ** [GET /roasts/mine/:visitorId] *)

(** C9 (the code at the failing input): for a well-formed visitor id with no
    row in the table, the query succeeds with no rows and the handler answers
    200 with the empty list; its 404 is the answer to a failed query only. *)
Theorem GET_roasts_mine_none_is_200 E visitorId w :
  visitorId <> "" ->
  isUUID E visitorId = true ->
  select_error E = None ->
  RoastServer.eq_visitor_id visitorId (roasts w) = [] ->
  fst (RoastServer.GET_roasts_mine E visitorId w)
  = Return (res_status_json 200 (JArr [])).
Proof.
  intros Hv Huuid Hsel Hnone.
  unfold RoastServer.GET_roasts_mine. rewrite (truthy_string _ Hv), Huuid.
  eff_unfold. rewrite Hsel. cbn [negb orb roasts add_call]. rewrite Hnone.
  reflexivity.
Qed.

Lemma GET_roasts_mine_none_is_200_witness :
  fst (RoastServer.GET_roasts_mine Demo.all_succeed Demo.visitor Demo.empty_world)
  = Return (res_status_json 200 (JArr [])).
Proof.
  apply (GET_roasts_mine_none_is_200 Demo.all_succeed Demo.visitor Demo.empty_world);
    first [reflexivity | discriminate].
Defined.

Lemma insert_desc_Permutation r l : RoastServer.insert_desc r l ≡ₚ r :: l.
Proof.
  induction l as [| r' l IH]; cbn; [reflexivity |].
  destruct (_ <? _)%Z; [reflexivity |].
  rewrite IH. apply Permutation_swap.
Qed.

Lemma order_desc_Permutation l : RoastServer.order_created_at_desc l ≡ₚ l.
Proof.
  induction l as [| r l IH]; cbn; [reflexivity |].
  rewrite insert_desc_Permutation. by rewrite IH.
Qed.

Lemma insert_desc_Sorted r l :
  Sorted newer_or_same l -> Sorted newer_or_same (RoastServer.insert_desc r l).
Proof.
  induction 1 as [| r' l Hl IH Hhd]; cbn.
  - repeat constructor.
  - destruct (Z.ltb_spec (created_at r') (created_at r)).
    + constructor; [by constructor |]. constructor. unfold newer_or_same. lia.
    + constructor; [exact IH |].
      destruct Hhd as [| r'' l' Hr'']; cbn.
      * constructor. unfold newer_or_same. lia.
      * destruct (Z.ltb_spec (created_at r'') (created_at r));
          constructor; unfold newer_or_same in *; lia.
Qed.

Lemma order_desc_Sorted l :
  Sorted newer_or_same (RoastServer.order_created_at_desc l).
Proof.
  induction l as [| r l IH]; cbn; [constructor |].
  by apply insert_desc_Sorted.
Qed.

Lemma filter_split (f : Row -> bool) l :
  List.filter f l ++ List.filter (fun r => negb (f r)) l ≡ₚ l.
Proof.
  induction l as [| r l IH]; [reflexivity |]. cbn.
  destruct (f r); cbn.
  - by rewrite IH.
  - rewrite <- Permutation_middle. by rewrite IH.
Qed.

Lemma visitor_is_spec v r :
  RoastServer.visitor_is v r = true <-> visitor_id r = JStr v.
Proof.
  unfold RoastServer.visitor_is. split.
  - destruct (visitor_id r); try discriminate.
    intros H. apply String.eqb_eq in H. by subst.
  - intros ->. apply String.eqb_refl.
Qed.

(** When the query succeeds, the answer is 200 with the rows of the visitor,
    each of them once and no other, newest first: the rows answered and the
    rows left out are together the table, every row answered is of the
    visitor and no row left out is. *)
Theorem GET_roasts_mine_newest_first E visitorId w :
  visitorId <> "" ->
  isUUID E visitorId = true ->
  select_error E = None ->
  exists data rest,
    fst (RoastServer.GET_roasts_mine E visitorId w)
    = Return (res_status_json 200 (JArr (map RoastServer.row_json data))) /\
    Sorted newer_or_same data /\
    (forall r, r ∈ data <-> r ∈ roasts w /\ visitor_id r = JStr visitorId) /\
    data ++ rest ≡ₚ roasts w /\
    (forall r, r ∈ rest -> visitor_id r <> JStr visitorId).
Proof.
  intros Hv Huuid Hsel.
  exists (RoastServer.order_created_at_desc
            (RoastServer.eq_visitor_id visitorId (roasts w))),
         (List.filter (fun r => negb (RoastServer.visitor_is visitorId r))
            (roasts w)).
  split; [| split; [| split; [| split]]].
  - unfold RoastServer.GET_roasts_mine. rewrite (truthy_string _ Hv), Huuid.
    eff_unfold. rewrite Hsel. reflexivity.
  - apply order_desc_Sorted.
  - intros r. rewrite order_desc_Permutation.
    unfold RoastServer.eq_visitor_id.
    rewrite list_elem_of_In, filter_In, <- list_elem_of_In, visitor_is_spec.
    reflexivity.
  - rewrite order_desc_Permutation. apply filter_split.
  - intros r Hr Hvis. apply list_elem_of_In, filter_In in Hr as [_ Hr].
    apply visitor_is_spec in Hvis. rewrite Hvis in Hr. discriminate.
Qed.

Lemma GET_roasts_mine_newest_first_witness :
  (exists data rest,
     fst (RoastServer.GET_roasts_mine Demo.all_succeed Demo.visitor Examples.table)
     = Return (res_status_json 200 (JArr (map RoastServer.row_json data))) /\
     Sorted newer_or_same data /\
     (forall r, r ∈ data <->
                r ∈ roasts Examples.table /\ visitor_id r = JStr Demo.visitor) /\
     data ++ rest ≡ₚ roasts Examples.table /\
     (forall r, r ∈ rest -> visitor_id r <> JStr Demo.visitor)) /\
  fst (RoastServer.GET_roasts_mine Demo.all_succeed Demo.visitor Examples.table)
  = Return (res_status_json 200
              (JArr [RoastServer.row_json
                       (Examples.roast "c" (JStr Demo.visitor) 30);
                     RoastServer.row_json
                       (Examples.roast "a" (JStr Demo.visitor) 10)])).
Proof.
  split; [| reflexivity].
  apply (GET_roasts_mine_newest_first Demo.all_succeed Demo.visitor Examples.table);
    first [reflexivity | discriminate].
Defined.

(** ** The limiter *)

Lemma skip_false E req :
  ip req ∉ whitelist E -> RateLimit.skip (limiter_options E) req = false.
Proof. intros H. cbn. apply bool_decide_eq_false. exact H. Qed.

Lemma skip_true E req :
  ip req ∈ whitelist E -> RateLimit.skip (limiter_options E) req = true.
Proof. intros H. cbn. apply bool_decide_eq_true. exact H. Qed.

(** One request of an address that is not on the allow-list: its counter is
    stepped, and the count decides. *)
Lemma limiter_counted E req next st :
  ip req ∉ whitelist E ->
  let h := RateLimit.increment (limiter_options E) (time req) (ip req)
             (RateLimit.hits st) in
  RateLimit.hits (snd (limiter E req next st))
  = <[ip req := h]> (RateLimit.hits st) /\
  (RateLimit.totalHits h <= 3 -> admitted E req next st) /\
  (3 < RateLimit.totalHits h ->
   rejected E req next st (Z.max 0 (3 - RateLimit.totalHits h))
     ((RateLimit.resetTime h - time req + 999) / 1000)).
Proof.
  intros Hclient h. unfold admitted, rejected, limiter, RateLimit.rateLimit.
  rewrite (skip_false E req Hclient).
  fold h. change (RateLimit.max (limiter_options E)) with 3.
  destruct (Z.ltb_spec 3 (RateLimit.totalHits h)) as [Hlt | Hle].
  - cbn [fst snd RateLimit.hits RateLimit.world]. split; [reflexivity|].
    split; [lia | intros _; split; reflexivity].
  - destruct (next (RateLimit.world st)) as [[r | e] w'];
      cbn [fst snd RateLimit.hits RateLimit.world].
    all: split; [reflexivity | split; [intros _ | lia]].
    all: split; [reflexivity | cbn; auto].
Qed.

Lemma increment_none o now key (store : gmap string RateLimit.Hit) :
  store !! key = None ->
  RateLimit.increment o now key store
  = {| RateLimit.totalHits := 1; RateLimit.resetTime := now + RateLimit.windowMs o |}.
Proof. intros H. unfold RateLimit.increment. rewrite H. reflexivity. Qed.

Lemma increment_some o now key (store : gmap string RateLimit.Hit) h :
  store !! key = Some h ->
  RateLimit.increment o now key store
  = if (now <? RateLimit.resetTime h)%Z
    then {| RateLimit.totalHits := RateLimit.totalHits h + 1;
            RateLimit.resetTime := RateLimit.resetTime h |}
    else {| RateLimit.totalHits := 1;
            RateLimit.resetTime := now + RateLimit.windowMs o |}.
Proof. intros H. unfold RateLimit.increment. rewrite H. reflexivity. Qed.

Lemma entry_after E req next st :
  ip req ∉ whitelist E ->
  RateLimit.hits (snd (limiter E req next st)) !! ip req
  = Some (RateLimit.increment (limiter_options E) (time req) (ip req)
            (RateLimit.hits st)).
Proof.
  intros Hc. destruct (limiter_counted E req next st Hc) as (-> & _).
  apply lookup_insert_eq.
Qed.

Lemma limiter_whitelisted E req next st :
  ip req ∈ whitelist E -> limiter E req next st = RateLimit.run next st.
Proof.
  intros Hc. unfold limiter, RateLimit.rateLimit.
  rewrite (skip_true E req Hc). reflexivity.
Qed.

Lemma limiter_other_entry E req next st client :
  ip req <> client ->
  RateLimit.hits (snd (limiter E req next st)) !! client
  = RateLimit.hits st !! client.
Proof.
  intros Hne. unfold limiter, RateLimit.rateLimit, RateLimit.run.
  destruct (RateLimit.skip _ _).
  - destruct (next _). reflexivity.
  - destruct (_ <? _)%Z; [|destruct (next _)];
      cbn [snd RateLimit.hits]; apply lookup_insert_ne; exact Hne.
Qed.

(** The limiter stands in front of [POST /roast] and [POST /screenshot]. *)
Lemma POST_routes_are_limited E req st :
  method req = POST ->
  (path req = ["roast"] ->
   RoastServer.app E req st = limiter E req (RoastServer.POST_roast E req) st) /\
  (path req = ["screenshot"] ->
   AppMjs.app E req st = limiter E req (AppMjs.POST_screenshot E req) st).
Proof.
  intros Hm. unfold RoastServer.app, AppMjs.app. rewrite Hm.
  split; intros ->; reflexivity.
Qed.

(** The counter of a client while its window is open: each of its requests
    adds one, the requests of other addresses nothing. *)
Lemma serve_entry E next client pre st h0 :
  client ∉ whitelist E ->
  RateLimit.hits st !! client = Some h0 ->
  (forall r, r ∈ pre -> ip r = client -> time r < RateLimit.resetTime h0) ->
  RateLimit.hits (serve E next pre st) !! client
  = Some {| RateLimit.totalHits :=
              RateLimit.totalHits h0 + Z.of_nat (length (of_client client pre));
            RateLimit.resetTime := RateLimit.resetTime h0 |}.
Proof.
  intros Hc. revert st h0.
  induction pre as [| r pre IH]; intros st h0 Hst Hwin.
  - cbn. rewrite Hst. destruct h0. cbn. do 2 f_equal. lia.
  - cbn [serve foldl of_client List.filter].
    fold (serve E next pre (snd (limiter E r (next r) st))).
    fold (of_client client pre).
    destruct (String.eqb_spec (ip r) client) as [Hr | Hr].
    + assert (Hr' : ip r ∉ whitelist E) by (rewrite Hr; exact Hc).
      pose proof (entry_after E r (next r) st Hr') as Hent.
      rewrite Hr in Hent. rewrite (increment_some _ _ _ _ _ Hst) in Hent.
      pose proof (Hwin r (list_elem_of_here _ _) Hr) as Ht.
      destruct (Z.ltb_spec (time r) (RateLimit.resetTime h0)); [| lia].
      rewrite (IH _ _ Hent)
        by (intros r' Hin; apply Hwin; by apply list_elem_of_further).
      cbn [RateLimit.totalHits RateLimit.resetTime length]. do 2 f_equal. lia.
    + apply IH.
      * rewrite (limiter_other_entry E r (next r) st client Hr). exact Hst.
      * intros r' Hin. apply Hwin. by apply list_elem_of_further.
Qed.

(** One request opens a window when the address has no counter or the window
    of its counter has ended: the request is admitted and counted as the
    first of a window of 15 minutes. *)
Lemma limiter_opens_window E req next st :
  ip req ∉ whitelist E ->
  (RateLimit.hits st !! ip req = None \/
   exists h, RateLimit.hits st !! ip req = Some h /\
             RateLimit.resetTime h <= time req) ->
  admitted E req next st /\
  RateLimit.hits (snd (limiter E req next st)) !! ip req
  = Some {| RateLimit.totalHits := 1;
            RateLimit.resetTime := time req + 15 * 60 * 1000 |}.
Proof.
  intros Hc Hopen.
  destruct (limiter_counted E req next st Hc) as (_ & A & _).
  rewrite (entry_after E req next st Hc).
  assert (Hinc : RateLimit.increment (limiter_options E) (time req) (ip req)
                   (RateLimit.hits st)
                 = {| RateLimit.totalHits := 1;
                      RateLimit.resetTime := time req + 15 * 60 * 1000 |}).
  { destruct Hopen as [Hn | (h & Hh & Hend)].
    - rewrite (increment_none _ _ _ _ Hn). reflexivity.
    - rewrite (increment_some _ _ _ _ _ Hh).
      destruct (Z.ltb_spec (time req) (RateLimit.resetTime h)); [lia | reflexivity]. }
  rewrite Hinc in *. split; [apply A; cbn; lia | reflexivity].
Qed.

(** C7: the limiter of the servers, 3 requests per window of 15 minutes and
    per client address.  Take four requests of one address that is not on
    the allow-list and has no window open, in the order of their times.  The
    first three are admitted.  The fourth, if it comes before the window of
    the first has ended, is answered by the limiter with the fixed message
    and the metadata limit 3, remaining 0 and the seconds to the reset, and
    the rest of the route does not run; if it comes when that window has
    ended, it is admitted.  A request of an address on the allow-list runs
    the route without any look at the counters, and a request of one address
    leaves the counter of any other as it is.

    In general, for any state of the counters and any number of requests:
    a request [r0] of an address that is not on the allow-list, coming when
    the address has no counter or its window has ended, opens a window of 15
    minutes and is admitted.  Let any requests [pre] follow, of this and of
    other addresses, those of this address within the window.  The counter
    of the address then holds [r0] and the requests of the address in [pre],
    with the end of the window of [r0].  Of a further request [r] of the
    address: within the window it is admitted if fewer than two requests of
    the address came between [r0] and [r], and otherwise, the fourth as well
    as any later one, answered by the limiter with the fixed message,
    remaining 0 and the seconds to the end of the window, the route not
    running; when the window has ended it is admitted, and opens the
    next window, of which the same holds.

    The limiter is what stands in front of the handlers of [POST /roast] and
    of [POST /screenshot]. *)
Theorem limiter_fixed_window E :
  (forall st0 client r1 r2 r3 r4 n1 n2 n3 n4,
     let st1 := snd (limiter E r1 n1 st0) in
     let st2 := snd (limiter E r2 n2 st1) in
     let st3 := snd (limiter E r3 n3 st2) in
     client ∉ whitelist E ->
     ip r1 = client -> ip r2 = client -> ip r3 = client -> ip r4 = client ->
     RateLimit.hits st0 !! client = None ->
     time r1 <= time r2 -> time r2 <= time r3 -> time r3 <= time r4 ->
     admitted E r1 n1 st0 /\
     admitted E r2 n2 st1 /\
     admitted E r3 n3 st2 /\
     (time r4 < time r1 + 15 * 60 * 1000 ->
      rejected E r4 n4 st3 0 ((time r1 + 15 * 60 * 1000 - time r4 + 999) / 1000)) /\
     (time r1 + 15 * 60 * 1000 <= time r4 -> admitted E r4 n4 st3)) /\
  (forall st req next,
     ip req ∈ whitelist E -> limiter E req next st = RateLimit.run next st) /\
  (forall st req next client,
     ip req <> client ->
     RateLimit.hits (snd (limiter E req next st)) !! client
     = RateLimit.hits st !! client) /\
  (forall next st0 client r0 pre r,
     let st1 := snd (limiter E r0 (next r0) st0) in
     let st := serve E next pre st1 in
     let k := length (of_client client pre) in
     let window_end := time r0 + 15 * 60 * 1000 in
     client ∉ whitelist E ->
     ip r0 = client -> ip r = client ->
     (RateLimit.hits st0 !! client = None \/
      exists h, RateLimit.hits st0 !! client = Some h /\
                RateLimit.resetTime h <= time r0) ->
     (forall r', r' ∈ pre -> ip r' = client -> time r' < window_end) ->
     admitted E r0 (next r0) st0 /\
     RateLimit.hits st !! client
     = Some {| RateLimit.totalHits := 1 + Z.of_nat k;
               RateLimit.resetTime := window_end |} /\
     (time r < window_end -> (k < 2)%nat -> admitted E r (next r) st) /\
     (time r < window_end -> (2 <= k)%nat ->
      rejected E r (next r) st 0 ((window_end - time r + 999) / 1000)) /\
     (window_end <= time r ->
      admitted E r (next r) st /\
      RateLimit.hits (snd (limiter E r (next r) st)) !! client
      = Some {| RateLimit.totalHits := 1;
                RateLimit.resetTime := time r + 15 * 60 * 1000 |})) /\
  (forall req st,
     method req = POST ->
     (path req = ["roast"] ->
      RoastServer.app E req st = limiter E req (RoastServer.POST_roast E req) st) /\
     (path req = ["screenshot"] ->
      AppMjs.app E req st = limiter E req (AppMjs.POST_screenshot E req) st)).
Proof.
  split; [| split; [intros; by apply limiter_whitelisted
                   | split; [intros; by apply limiter_other_entry
                            | split; [| intros; by apply POST_routes_are_limited]]]].
  2: { intros next st0 client r0 pre r st1 st k window_end Hc E0 Er Hopen Hwin.
       assert (C0 : ip r0 ∉ whitelist E) by (rewrite E0; exact Hc).
       assert (Cr : ip r ∉ whitelist E) by (rewrite Er; exact Hc).
       rewrite <- E0 in Hopen.
       destruct (limiter_opens_window E r0 (next r0) st0 C0 Hopen) as (A0 & H1).
       fold st1 in H1. rewrite E0 in H1.
       pose proof (serve_entry E next client pre st1 _ Hc H1 Hwin) as Hst.
       fold st k in Hst. cbn [RateLimit.totalHits RateLimit.resetTime] in Hst.
       fold window_end in Hst.
       split; [exact A0 | split; [exact Hst |]].
       destruct (limiter_counted E r (next r) st Cr) as (_ & A & R).
       rewrite Er in A, R. rewrite (increment_some _ _ _ _ _ Hst) in A, R.
       cbn [RateLimit.totalHits RateLimit.resetTime] in A, R.
       split; [| split].
       - intros Ht Hk.
         destruct (Z.ltb_spec (time r) window_end); [| lia].
         apply A. cbn. lia.
       - intros Ht Hk.
         destruct (Z.ltb_spec (time r) window_end); [| lia].
         cbn [RateLimit.totalHits RateLimit.resetTime] in R.
         replace 0 with (Z.max 0 (3 - (1 + Z.of_nat k + 1))) by lia.
         apply R. lia.
       - intros Ht. rewrite <- Er in Hst |- *.
         apply (limiter_opens_window E r (next r) st Cr).
         right. eexists. split; [exact Hst | cbn; lia]. }
  intros st0 client r1 r2 r3 r4 n1 n2 n3 n4 st1 st2 st3 Hc E1 E2 E3 E4 H0 H12 H23 H34.
  assert (C1 : ip r1 ∉ whitelist E) by (rewrite E1; exact Hc).
  assert (C2 : ip r2 ∉ whitelist E) by (rewrite E2; exact Hc).
  assert (C3 : ip r3 ∉ whitelist E) by (rewrite E3; exact Hc).
  assert (C4 : ip r4 ∉ whitelist E) by (rewrite E4; exact Hc).
  pose proof (entry_after E r1 n1 st0 C1) as L1. fold st1 in L1.
  pose proof (entry_after E r2 n2 st1 C2) as L2. fold st2 in L2.
  pose proof (entry_after E r3 n3 st2 C3) as L3. fold st3 in L3.
  destruct (limiter_counted E r1 n1 st0 C1) as (_ & A1 & _).
  destruct (limiter_counted E r2 n2 st1 C2) as (_ & A2 & _).
  destruct (limiter_counted E r3 n3 st2 C3) as (_ & A3 & _).
  destruct (limiter_counted E r4 n4 st3 C4) as (_ & A4 & R4).
  fold st1 st2 st3 in A2, A3, A4, R4.
  rewrite E1 in L1, A1. rewrite E2 in L2, A2. rewrite E3 in L3, A3.
  rewrite E4 in A4, R4.
  rewrite (increment_none _ _ _ _ H0) in L1, A1.
  rewrite (increment_some _ _ _ _ _ L1) in L2, A2.
  rewrite (increment_some _ _ _ _ _ L2) in L3, A3.
  rewrite (increment_some _ _ _ _ _ L3) in A4, R4.
  change (RateLimit.windowMs (limiter_options E)) with (15 * 60 * 1000) in *.
  clear L1 L2 L3.
  cbn [RateLimit.totalHits RateLimit.resetTime] in *.
  repeat match goal with
    | H : context [(?a <? ?b)%Z] |- _ =>
        destruct (Z.ltb_spec a b); cbn [RateLimit.totalHits RateLimit.resetTime] in *
    end.
  all: split; [apply A1; lia | split; [apply A2; lia | split; [apply A3; lia |]]].
  all: split; intros Hwin; first [lia | apply A4; lia | apply R4; lia].
Qed.

Lemma Demo_client_not_whitelisted : Demo.client ∉ whitelist Demo.all_succeed.
Proof.
  change (whitelist Demo.all_succeed) with ["10.0.0.1"; "10.0.0.2"].
  intros H. repeat (apply elem_of_cons in H as [H | H]; [discriminate H |]).
  exact (proj1 (elem_of_nil _) H).
Defined.

Lemma limiter_fixed_window_witness :
  rejected Demo.all_succeed (Demo.roast_at 180000)
    (RoastServer.POST_roast Demo.all_succeed (Demo.roast_at 180000))
    (snd (limiter Demo.all_succeed (Demo.roast_at 120000)
            (RoastServer.POST_roast Demo.all_succeed (Demo.roast_at 120000))
            (snd (limiter Demo.all_succeed (Demo.roast_at 60000)
                    (RoastServer.POST_roast Demo.all_succeed (Demo.roast_at 60000))
                    (snd (limiter Demo.all_succeed (Demo.roast_at 0)
                            (RoastServer.POST_roast Demo.all_succeed
                               (Demo.roast_at 0))
                            Demo.fresh))))))
    0 720 /\
  rejected Demo.all_succeed (Demo.roast_at 240000)
    (RoastServer.POST_roast Demo.all_succeed (Demo.roast_at 240000))
    (serve Demo.all_succeed (RoastServer.POST_roast Demo.all_succeed)
       [Demo.roast_at 60000; Demo.roast_at 120000; Demo.roast_at 180000]
       (snd (limiter Demo.all_succeed (Demo.roast_at 0)
               (RoastServer.POST_roast Demo.all_succeed (Demo.roast_at 0))
               Demo.fresh)))
    0 660 /\
  admitted Demo.all_succeed (Demo.roast_at 900000)
    (RoastServer.POST_roast Demo.all_succeed (Demo.roast_at 900000))
    (serve Demo.all_succeed (RoastServer.POST_roast Demo.all_succeed)
       [Demo.roast_at 60000; Demo.roast_at 120000; Demo.roast_at 180000]
       (snd (limiter Demo.all_succeed (Demo.roast_at 0)
               (RoastServer.POST_roast Demo.all_succeed (Demo.roast_at 0))
               Demo.fresh))).
Proof.
  assert (Hwin : forall r',
            r' ∈ [Demo.roast_at 60000; Demo.roast_at 120000; Demo.roast_at 180000] ->
            ip r' = Demo.client ->
            time r' < time (Demo.roast_at 0) + 15 * 60 * 1000).
  { intros r' Hin _.
    repeat (apply elem_of_cons in Hin as [-> | Hin]; [cbn; lia |]).
    exfalso. exact (proj1 (elem_of_nil r') Hin). }
  split; [| split].
  - refine (proj1 (proj2 (proj2 (proj2
      (proj1 (limiter_fixed_window Demo.all_succeed) Demo.fresh Demo.client
         (Demo.roast_at 0) (Demo.roast_at 60000) (Demo.roast_at 120000)
         (Demo.roast_at 180000)
         (RoastServer.POST_roast Demo.all_succeed (Demo.roast_at 0))
         (RoastServer.POST_roast Demo.all_succeed (Demo.roast_at 60000))
         (RoastServer.POST_roast Demo.all_succeed (Demo.roast_at 120000))
         (RoastServer.POST_roast Demo.all_succeed (Demo.roast_at 180000))
         Demo_client_not_whitelisted eq_refl eq_refl eq_refl eq_refl eq_refl
         _ _ _)))) _);
      cbn [time Demo.roast_at]; lia.
  - refine (proj1 (proj2 (proj2 (proj2
      (proj1 (proj2 (proj2 (proj2 (limiter_fixed_window Demo.all_succeed))))
         (RoastServer.POST_roast Demo.all_succeed) Demo.fresh Demo.client
         (Demo.roast_at 0)
         [Demo.roast_at 60000; Demo.roast_at 120000; Demo.roast_at 180000]
         (Demo.roast_at 240000)
         Demo_client_not_whitelisted eq_refl eq_refl (or_introl eq_refl) Hwin))))
      _ _).
    + cbn [time Demo.roast_at]. lia.
    + vm_compute. lia.
  - refine (proj1 (proj2 (proj2 (proj2 (proj2
      (proj1 (proj2 (proj2 (proj2 (limiter_fixed_window Demo.all_succeed))))
         (RoastServer.POST_roast Demo.all_succeed) Demo.fresh Demo.client
         (Demo.roast_at 0)
         [Demo.roast_at 60000; Demo.roast_at 120000; Demo.roast_at 180000]
         (Demo.roast_at 900000)
         Demo_client_not_whitelisted eq_refl eq_refl (or_introl eq_refl) Hwin))))
      _)).
    cbn [time Demo.roast_at]. lia.
Defined.

(** ** The routes without the limiter *)

Lemma run_ignores_store (h : Eff Response) (st : RateLimit.AppState) store :
  RateLimit.hits (snd (RateLimit.run h st)) = RateLimit.hits st /\
  fst (RateLimit.run h
         {| RateLimit.hits := store; RateLimit.world := RateLimit.world st |})
  = fst (RateLimit.run h st) /\
  RateLimit.world (snd (RateLimit.run h
     {| RateLimit.hits := store; RateLimit.world := RateLimit.world st |}))
  = RateLimit.world (snd (RateLimit.run h st)).
Proof.
  unfold RateLimit.run. cbn [RateLimit.world RateLimit.hits].
  destruct (h (RateLimit.world st)). repeat split.
Qed.

Lemma RoastServer_GET_runs_handler E req :
  method req = GET ->
  exists h : Eff Response, forall st, RoastServer.app E req st = RateLimit.run h st.
Proof.
  intros Hm. unfold RoastServer.app. rewrite Hm.
  destruct (path req) as [|a [|b [|c [|d l]]]];
    repeat match goal with
      | |- context [if ?c then _ else _] => destruct c
      end; eexists; intros st; reflexivity.
Qed.

Lemma AppMjs_GET_runs_handler E req :
  method req = GET ->
  exists h : Eff Response, forall st, AppMjs.app E req st = RateLimit.run h st.
Proof.
  intros Hm. unfold AppMjs.app. rewrite Hm.
  destruct (path req); eexists; intros st; reflexivity.
Qed.

(** C10: no GET route has the limiter in front of it.  A GET request, on
    either server, leaves the counters as they are, and its answer is the
    same whatever the counters hold, also when the address has used up its
    window; [/], [/roasts], [/roasts/:id] and [/roasts/mine/:visitorId] run
    their handlers. *)
Theorem GET_is_never_rate_limited E req st :
  method req = GET ->
  (RateLimit.hits (snd (RoastServer.app E req st)) = RateLimit.hits st /\
   forall store,
     fst (RoastServer.app E req
            {| RateLimit.hits := store; RateLimit.world := RateLimit.world st |})
     = fst (RoastServer.app E req st)) /\
  (RateLimit.hits (snd (AppMjs.app E req st)) = RateLimit.hits st /\
   forall store,
     fst (AppMjs.app E req
            {| RateLimit.hits := store; RateLimit.world := RateLimit.world st |})
     = fst (AppMjs.app E req st)) /\
  (path req = [] -> RoastServer.app E req st = RateLimit.run RoastServer.GET_root st) /\
  (path req = ["roasts"] ->
   RoastServer.app E req st = RateLimit.run (RoastServer.GET_roasts E) st) /\
  (forall id, path req = ["roasts"; id] ->
   RoastServer.app E req st = RateLimit.run (RoastServer.GET_roasts_id E id) st) /\
  (forall visitorId, path req = ["roasts"; "mine"; visitorId] ->
   RoastServer.app E req st
   = RateLimit.run (RoastServer.GET_roasts_mine E visitorId) st) /\
  (path req = [] -> AppMjs.app E req st = RateLimit.run AppMjs.GET_root st).
Proof.
  intros Hm.
  destruct (RoastServer_GET_runs_handler E req Hm) as [h Hh].
  destruct (AppMjs_GET_runs_handler E req Hm) as [h' Hh'].
  split; [| split].
  - split; [| intros store]; rewrite !Hh.
    + apply (run_ignores_store h st ∅).
    + apply (run_ignores_store h st store).
  - split; [| intros store]; rewrite !Hh'.
    + apply (run_ignores_store h' st ∅).
    + apply (run_ignores_store h' st store).
  - unfold RoastServer.app, AppMjs.app. rewrite Hm.
    repeat split; intros; subst;
      repeat match goal with H : path req = _ |- _ => rewrite H end; reflexivity.
Qed.

Lemma GET_is_never_rate_limited_witness :
  RateLimit.hits (snd (RoastServer.app Demo.all_succeed (Demo.get ["roasts"])
                         Demo.exhausted))
  = RateLimit.hits Demo.exhausted /\
  forall store,
    fst (RoastServer.app Demo.all_succeed (Demo.get ["roasts"])
           {| RateLimit.hits := store;
              RateLimit.world := RateLimit.world Demo.exhausted |})
    = fst (RoastServer.app Demo.all_succeed (Demo.get ["roasts"]) Demo.exhausted).
Proof.
  apply (proj1 (GET_is_never_rate_limited Demo.all_succeed (Demo.get ["roasts"])
                  Demo.exhausted eq_refl)).
Defined.

(** ** The join of upload and analysis *)

Lemma join_inv_initial : join_inv Join.initial.
Proof. repeat split; cbn; intros; discriminate. Qed.

Lemma join_inv_step s ev s' :
  join_inv s -> Join.step s ev = Some s' -> join_inv s'.
Proof.
  intros (I1 & I2 & I3 & I4) Hstep.
  destruct s as [u a al h]. cbn in I1, I2, I3, I4.
  destruct ev as [o | o |]; cbn in Hstep.
  - destruct u; try discriminate. injection Hstep as <-.
    destruct o as [r | e], al as [| [r' a'] | e'], a as [| va | ea], h;
      use_join_inv; close_join_inv.
  - destruct a; try discriminate. injection Hstep as <-.
    destruct o as [r | e], al as [| [r' a'] | e'], u as [| vu | eu], h;
      use_join_inv; close_join_inv.
  - destruct h; try discriminate.
    destruct al as [| [r' a'] | e']; try discriminate; injection Hstep as <-;
      use_join_inv; close_join_inv.
Qed.

Lemma reachable_inv s : Join.reachable s -> join_inv s.
Proof.
  induction 1 as [| s ev s' _ IH Hstep].
  - apply join_inv_initial.
  - exact (join_inv_step s ev s' IH Hstep).
Qed.

Lemma join_open_step s ev s' :
  join_open s -> Join.step s ev = Some s' -> join_open s'.
Proof.
  unfold join_open, none_rejected. intros (O1 & O2) Hstep.
  destruct s as [u a al h]. cbn in O1, O2.
  destruct ev as [o | o |]; cbn in Hstep.
  - destruct u; try discriminate. injection Hstep as <-. cbn.
    destruct o as [r | e]; cbn.
    + split.
      * intros [_ Ha]. rewrite O1 by (split; [discriminate | exact Ha]).
        destruct a; reflexivity.
      * destruct al as [| [r' a'] | e']; [auto | | discriminate].
        destruct a; cbn; intros; try discriminate; auto.
    + split; [intros [Hu _]; exfalso; exact (Hu e eq_refl) |].
      destruct al; discriminate.
  - destruct a; try discriminate. injection Hstep as <-. cbn.
    destruct o as [r | e]; cbn.
    + split.
      * intros [Hu _]. rewrite O1 by (split; [exact Hu | discriminate]).
        destruct u; reflexivity.
      * destruct al as [| [r' a'] | e']; [| | discriminate].
        -- destruct u; cbn; intros; try discriminate; auto.
        -- destruct u; cbn; intros; try discriminate; auto.
    + split; [intros [_ Ha]; exfalso; exact (Ha e eq_refl) |].
      destruct al; discriminate.
  - destruct h; try discriminate.
    destruct al as [| [r' a'] | e']; try discriminate; injection Hstep as <-; cbn.
    + split; [exact O1 | discriminate].
    + split; [exact O1 | discriminate].
Qed.

Lemma reachable_open s : Join.reachable s -> join_open s.
Proof.
  induction 1 as [| s ev s' _ IH Hstep].
  - split; [reflexivity | reflexivity].
  - exact (join_open_step s ev s' IH Hstep).
Qed.

Lemma analysis_rejected_first_reachable :
  Join.reachable Demo.analysis_rejected_first.
Proof.
  eapply Join.reach_step with (ev := Join.HandlerRuns);
    [eapply Join.reach_step
       with (ev := Join.AnalysisSettles (Throw Demo.provider_error));
     [apply Join.reach_initial | reflexivity] | reflexivity].
Qed.

Lemma upload_failed_first_reachable : Join.reachable Demo.upload_failed_first.
Proof.
  eapply Join.reach_step
    with (ev := Join.UploadSettles (Return (UploadError Demo.insert_failure)));
    [apply Join.reach_initial | reflexivity].
Defined.

(** C5 (counterexample): the analysis rejects while the upload is on its way;
    [Promise.all] rejects at once and the [catch] of the route runs: the
    request has failed and the upload is still pending, not awaited. *)
Lemma request_fails_while_upload_is_pending :
  Join.reachable Demo.analysis_rejected_first /\
  Join.failed Demo.analysis_rejected_first = true /\
  Join.pending (Join.upload_p Demo.analysis_rejected_first) = true.
Proof.
  split; [apply analysis_rejected_first_reachable | split; reflexivity].
Qed.

(** C5 (amended): upload and analysis settle in either order.  The handler
    goes on past its [await] only when both have fulfilled.  Its [catch] runs
    only when one of them has rejected, and then at once, whatever the state
    of the other.  An upload that has resolved, also with [{ error }], does
    not fail the request while the analysis is pending: the analysis is
    awaited.  Nothing is cancelled: an operation that is pending can settle
    whatever the handler has done, and the handler is not touched by it.
    The rejections fail the request at once: when the upload promise rejects
    and the analysis has not rejected before it, the next thing the handler
    does is to run its [catch] with the upload's error, the analysis being as
    it was, pending if it was pending; and the same with the two exchanged.
    When the second of the two fulfils, the handler resumes with both
    results.  And while one is pending and none has rejected, the handler
    cannot go on. *)
Theorem handler_waits_for_fulfilment_not_for_rejection s :
  Join.reachable s ->
  (forall r a, Join.handler s = Join.Resumed r a ->
     Join.upload_p s = Join.Fulfilled r /\ Join.analysis_p s = Join.Fulfilled a) /\
  (forall e, Join.handler s = Join.Caught e ->
     Join.upload_p s = Join.Rejected e \/ Join.analysis_p s = Join.Rejected e) /\
  (forall r, Join.upload_p s = Join.Fulfilled r ->
     Join.analysis_p s = Join.Pending -> Join.handler s = Join.Awaiting) /\
  (forall o, Join.upload_p s = Join.Pending ->
     exists s', Join.step s (Join.UploadSettles o) = Some s' /\
                Join.handler s' = Join.handler s) /\
  (forall o, Join.analysis_p s = Join.Pending ->
     exists s', Join.step s (Join.AnalysisSettles o) = Some s' /\
                Join.handler s' = Join.handler s) /\
  (forall e, Join.upload_p s = Join.Pending ->
     (forall e', Join.analysis_p s <> Join.Rejected e') ->
     exists s' s'',
       Join.step s (Join.UploadSettles (Throw e)) = Some s' /\
       Join.step s' Join.HandlerRuns = Some s'' /\
       Join.handler s'' = Join.Caught e /\
       Join.analysis_p s'' = Join.analysis_p s) /\
  (forall e, Join.analysis_p s = Join.Pending ->
     (forall e', Join.upload_p s <> Join.Rejected e') ->
     exists s' s'',
       Join.step s (Join.AnalysisSettles (Throw e)) = Some s' /\
       Join.step s' Join.HandlerRuns = Some s'' /\
       Join.handler s'' = Join.Caught e /\
       Join.upload_p s'' = Join.upload_p s) /\
  (forall r a, Join.upload_p s = Join.Fulfilled r ->
     Join.analysis_p s = Join.Pending ->
     exists s' s'',
       Join.step s (Join.AnalysisSettles (Return a)) = Some s' /\
       Join.step s' Join.HandlerRuns = Some s'' /\
       Join.handler s'' = Join.Resumed r a) /\
  (forall r a, Join.upload_p s = Join.Pending ->
     Join.analysis_p s = Join.Fulfilled a ->
     exists s' s'',
       Join.step s (Join.UploadSettles (Return r)) = Some s' /\
       Join.step s' Join.HandlerRuns = Some s'' /\
       Join.handler s'' = Join.Resumed r a) /\
  (none_rejected s ->
   Join.upload_p s = Join.Pending \/ Join.analysis_p s = Join.Pending ->
   Join.handler s = Join.Awaiting /\ Join.step s Join.HandlerRuns = None).
Proof.
  intros Hs. destruct (reachable_inv s Hs) as (I1 & I2 & I3 & I4).
  destruct (reachable_open s Hs) as (O1 & O2).
  split; [| split; [| split; [| split; [| split; [| split; [| split; [| split;
    [| split]]]]]]]].
  6-10: destruct s as [u a al h]; unfold none_rejected in O1; cbn in *.
  6: { intros e -> Ha.
       assert (Hal : al = Join.Pending)
         by (apply O1; split; [discriminate | exact Ha]).
       subst al. rewrite (O2 eq_refl). cbn. eauto 10. }
  6: { intros e -> Hu.
       assert (Hal : al = Join.Pending)
         by (rewrite O1 by (split; [exact Hu | discriminate]);
             destruct u; reflexivity).
       subst al. rewrite (O2 eq_refl). cbn. eauto 10. }
  6: { intros r v -> ->.
       assert (Hal : al = Join.Pending) by (apply O1; split; discriminate).
       subst al. rewrite (O2 eq_refl). cbn. eauto 10. }
  6: { intros r v -> ->.
       assert (Hal : al = Join.Pending) by (apply O1; split; discriminate).
       subst al. rewrite (O2 eq_refl). cbn. eauto 10. }
  6: { intros Hn Hp.
       assert (Hal : al = Join.Pending)
         by (rewrite O1 by exact Hn;
             destruct Hp as [-> | ->]; [| destruct u]; reflexivity).
       subst al. rewrite (O2 eq_refl). split; reflexivity. }
  - intros r a Hh. apply I1, I3, Hh.
  - intros e Hh. apply I2, I4, Hh.
  - intros r Hu Ha.
    destruct (Join.handler s) as [| r' a' | e] eqn:Hh; [reflexivity | |].
    + destruct (I1 _ _ (I3 _ _ eq_refl)) as [_ Ha']. congruence.
    + destruct (I2 _ (I4 _ eq_refl)); congruence.
  - intros o Hu. unfold Join.step. rewrite Hu. eexists. split; reflexivity.
  - intros o Ha. unfold Join.step. rewrite Ha. eexists. split; reflexivity.
Qed.

Lemma handler_waits_for_fulfilment_not_for_rejection_witness :
  Join.handler Demo.upload_failed_first = Join.Awaiting.
Proof.
  exact (proj1 (proj2 (proj2
           (handler_waits_for_fulfilment_not_for_rejection
              Demo.upload_failed_first upload_failed_first_reachable)))
           (UploadError Demo.insert_failure) eq_refl eq_refl).
Defined.

(** The sequential [Promise_all] of the handlers and the join agree on what
    the handler sees once both operations have settled. *)
Lemma Promise_all_agrees_with_join upload_first ou oa w :
  Join.handler <$> settle_both upload_first ou oa
  = Some (seen (fst (Promise_all upload_first (await ou) (await oa) w))).
Proof.
  destruct upload_first, ou as [r | e], oa as [a | e']; reflexivity.
Qed.

(** ** The [/screenshot] servers *)

Lemma invalid_url_true E u w :
  u = "" \/ (2048 < String.length u)%nat \/ isURL E u = false ->
  Screenshot.invalid_url E (Some (JStr u)) w = (Return true, w).
Proof.
  intros H. unfold Screenshot.invalid_url, validURL, bind, ret.
  destruct (String.eqb_spec u "") as [-> | Hu]; [reflexivity |].
  rewrite (truthy_string u Hu). cbn [negb Screenshot.is_string as_string].
  destruct (Nat.ltb_spec 2048 (String.length u)) as [Hlt | Hle]; [reflexivity |].
  destruct H as [H | [H | H]]; [contradiction | lia |].
  rewrite H. reflexivity.
Qed.

Lemma invalid_url_false E u w :
  u <> "" -> (String.length u <= 2048)%nat -> isURL E u = true ->
  Screenshot.invalid_url E (Some (JStr u)) w = (Return false, w).
Proof.
  intros Hu Hlen Hvalid. unfold Screenshot.invalid_url, validURL, bind, ret.
  rewrite (truthy_string u Hu). cbn [negb Screenshot.is_string as_string].
  destruct (Nat.ltb_spec 2048 (String.length u)) as [Hlt | Hle]; [lia |].
  rewrite Hvalid. reflexivity.
Qed.

(** [POST /screenshot], on both servers: a [url] that is empty, longer than
    2048 characters or not accepted by validator.js is answered with 400, and
    no call leaves the server. *)
Theorem POST_screenshot_rejects_invalid_url E req w u :
  assoc "url" (body req) = Some (JStr u) ->
  u = "" \/ (2048 < String.length u)%nat \/ isURL E u = false ->
  (exists res, fst (AppMjs.POST_screenshot E req w) = Return res /\ status res = 400) /\
  calls (snd (AppMjs.POST_screenshot E req w)) = calls w /\
  (exists res, fst (ClassifyingServer.POST_screenshot E req w) = Return res /\
               status res = 400) /\
  calls (snd (ClassifyingServer.POST_screenshot E req w)) = calls w.
Proof.
  intros Hurl H.
  unfold AppMjs.POST_screenshot, ClassifyingServer.POST_screenshot,
    bind, console_log.
  rewrite Hurl, !(invalid_url_true E u _ H).
  unfold ret. cbn [fst snd]. repeat split; eauto.
Qed.

Lemma POST_screenshot_rejects_invalid_url_witness :
  (exists res,
     fst (AppMjs.POST_screenshot Demo.all_succeed
            (Demo.roast_request Demo.long_url) Demo.empty_world) = Return res /\
     status res = 400) /\
  calls (snd (AppMjs.POST_screenshot Demo.all_succeed
                (Demo.roast_request Demo.long_url) Demo.empty_world))
  = calls Demo.empty_world /\
  (exists res,
     fst (ClassifyingServer.POST_screenshot Demo.all_succeed
            (Demo.roast_request Demo.long_url) Demo.empty_world) = Return res /\
     status res = 400) /\
  calls (snd (ClassifyingServer.POST_screenshot Demo.all_succeed
                (Demo.roast_request Demo.long_url) Demo.empty_world))
  = calls Demo.empty_world.
Proof.
  apply (POST_screenshot_rejects_invalid_url Demo.all_succeed
           (Demo.roast_request Demo.long_url) Demo.empty_world Demo.long_url).
  - reflexivity.
  - right. left. vm_compute. lia.
Defined.

(** [POST /screenshot] of [src/app.mjs]: a URL whose hostname resolves to an
    unspecified or a loopback address, or to one for which [isPrivate()] does
    not answer [false], is answered with [AppMjs.not_public]; the DNS lookup
    is the only call, the capture is not asked for. *)
Theorem POST_screenshot_rejects_non_public E req w u hostname address addr :
  assoc "url" (body req) = Some (JStr u) ->
  u <> "" -> (String.length u <= 2048)%nat -> isURL E u = true ->
  URL_hostname E u = Return hostname ->
  dns_lookup E hostname = Return address ->
  ipaddr_parse E address = Return addr ->
  range addr = "unspecified" \/ range addr = "loopback" \/
    isPrivate addr <> Return false ->
  fst (AppMjs.POST_screenshot E req w) = Return AppMjs.not_public /\
  calls (snd (AppMjs.POST_screenshot E req w)) = DnsLookup hostname :: calls w.
Proof.
  intros Hurl Hu Hlen Hvalid Hhost Hdns Hparse H.
  unfold AppMjs.POST_screenshot, AppMjs.isPublicUrl,
    bind, try_catch, await, call, ret, console_log.
  rewrite Hurl, (invalid_url_false E u _ Hu Hlen Hvalid).
  cbn [as_string]. rewrite Hhost, Hdns, Hparse.
  destruct (String.eqb_spec (range addr) "unspecified") as [Hr | Hr];
    [split; reflexivity |].
  destruct (String.eqb_spec (range addr) "loopback") as [Hl | Hl];
    [split; reflexivity |].
  destruct H as [H | [H | H]]; [contradiction | contradiction |].
  cbn [negb]. destruct (isPrivate addr) as [[] | e]; [| contradiction |];
    split; reflexivity.
Qed.

Lemma POST_screenshot_rejects_non_public_witness :
  fst (AppMjs.POST_screenshot Demo.all_succeed
         (Demo.roast_request Demo.loopback_url) Demo.empty_world)
  = Return AppMjs.not_public /\
  calls (snd (AppMjs.POST_screenshot Demo.all_succeed
                (Demo.roast_request Demo.loopback_url) Demo.empty_world))
  = DnsLookup "127.0.0.1" :: calls Demo.empty_world.
Proof.
  apply (POST_screenshot_rejects_non_public Demo.all_succeed
           (Demo.roast_request Demo.loopback_url) Demo.empty_world
           Demo.loopback_url "127.0.0.1" "127.0.0.1"
           {| range := "loopback"; isPrivate := Return false |}).
  - reflexivity.
  - discriminate.
  - vm_compute. lia.
  - reflexivity.
  - reflexivity.
  - reflexivity.
  - reflexivity.
  - right. left. reflexivity.
Defined.

(** [getScreenshot] of the first server of [src/unnamed/part_001]: whatever
    capture-website throws, the error thrown on carries one of three fixed
    messages, chosen by two tests on the message of the error; the three
    messages differ. *)
Theorem getScreenshot_classifies E url w e :
  captureWebsite_base64 E url = Throw e ->
  fst (ClassifyingServer.getScreenshot E url w) = Throw (Error (classified e)) /\
  (classified e = ClassifyingServer.Unresolvable_message \/
   classified e = ClassifyingServer.Timeout_message \/
   classified e = ClassifyingServer.Blocked_message) /\
  ClassifyingServer.Unresolvable_message <> ClassifyingServer.Timeout_message /\
  ClassifyingServer.Unresolvable_message <> ClassifyingServer.Blocked_message /\
  ClassifyingServer.Timeout_message <> ClassifyingServer.Blocked_message.
Proof.
  intros He. unfold ClassifyingServer.getScreenshot, classified,
    bind, try_catch, await, call, console_error, throw.
  rewrite He.
  destruct (includes (message e) "ERR_NAME_NOT_RESOLVED");
    [| destruct (includes (message e) "Navigation timeout")];
    cbn [fst]; (split; [reflexivity | split; [auto | repeat split; discriminate]]).
Qed.

Lemma getScreenshot_classifies_witness :
  fst (ClassifyingServer.getScreenshot Demo.all_succeed "https://example.com"
         Demo.empty_world)
  = Throw (Error (classified (Error "Navigation timeout of 30000 ms exceeded"))) /\
  (classified (Error "Navigation timeout of 30000 ms exceeded")
   = ClassifyingServer.Unresolvable_message \/
   classified (Error "Navigation timeout of 30000 ms exceeded")
   = ClassifyingServer.Timeout_message \/
   classified (Error "Navigation timeout of 30000 ms exceeded")
   = ClassifyingServer.Blocked_message) /\
  ClassifyingServer.Unresolvable_message <> ClassifyingServer.Timeout_message /\
  ClassifyingServer.Unresolvable_message <> ClassifyingServer.Blocked_message /\
  ClassifyingServer.Timeout_message <> ClassifyingServer.Blocked_message.
Proof.
  apply (getScreenshot_classifies Demo.all_succeed "https://example.com"
           Demo.empty_world (Error "Navigation timeout of 30000 ms exceeded")).
  reflexivity.
Defined.

(** [POST /screenshot] of that server: a capture that times out is answered
    with 400 and the fixed message of a timeout. *)
Theorem POST_screenshot_timeout_is_400 E req w u e :
  assoc "url" (body req) = Some (JStr u) ->
  u <> "" -> (String.length u <= 2048)%nat -> isURL E u = true ->
  captureWebsite_base64 E u = Throw e ->
  includes (message e) "ERR_NAME_NOT_RESOLVED" = false ->
  includes (message e) "Navigation timeout" = true ->
  fst (ClassifyingServer.POST_screenshot E req w)
  = Return (res_status_json 400 (error_body ClassifyingServer.Timeout_message)) /\
  roasts (snd (ClassifyingServer.POST_screenshot E req w)) = roasts w.
Proof.
  intros Hurl Hu Hlen Hvalid He Hname Htime.
  unfold ClassifyingServer.POST_screenshot, ClassifyingServer.getScreenshot,
    Screenshot.on_error, bind, try_catch, await, call, ret, throw,
    console_log, console_error.
  rewrite Hurl, (invalid_url_false E u _ Hu Hlen Hvalid).
  cbn [as_string]. rewrite He, Hname, Htime.
  split; reflexivity.
Qed.

Lemma POST_screenshot_timeout_is_400_witness :
  fst (ClassifyingServer.POST_screenshot Demo.all_succeed
         (Demo.roast_request "https://example.com") Demo.empty_world)
  = Return (res_status_json 400 (error_body ClassifyingServer.Timeout_message)) /\
  roasts (snd (ClassifyingServer.POST_screenshot Demo.all_succeed
                 (Demo.roast_request "https://example.com") Demo.empty_world))
  = roasts Demo.empty_world.
Proof.
  apply (POST_screenshot_timeout_is_400 Demo.all_succeed
           (Demo.roast_request "https://example.com") Demo.empty_world
           "https://example.com" (Error "Navigation timeout of 30000 ms exceeded")).
  - reflexivity.
  - discriminate.
  - vm_compute. lia.
  - reflexivity.
  - reflexivity.
  - reflexivity.
  - reflexivity.
Defined.



(** * More of the code *)

(** ** The gate of [src/app.mjs] *)

Lemma isPublicUrl_spec E u w :
  (exists b, fst (AppMjs.isPublicUrl E u w) = Return b) /\
  (fst (AppMjs.isPublicUrl E u w) = Return true <-> passes_gate E u) /\
  (forall c, c ∈ calls (snd (AppMjs.isPublicUrl E u w)) ->
     c ∈ calls w \/ exists hostname, URL_hostname E u = Return hostname /\
                                     c = DnsLookup hostname) /\
  roasts (snd (AppMjs.isPublicUrl E u w)) = roasts w.
Proof.
  unfold AppMjs.isPublicUrl, passes_gate, bind, try_catch, await, call, ret.
  destruct (URL_hostname E u) as [hostname | e1] eqn:H1; cbn [fst snd calls add_call].
  2: { split; [eauto | split; [split; [discriminate
                                      | intros (? & ? & ? & ? & _); discriminate]
                              | split; [auto | reflexivity]]]. }
  destruct (dns_lookup E hostname) as [address | e2] eqn:H2.
  2: { split; [eauto | split; [split; [discriminate
         | intros (? & ? & ? & [= <-] & ? & _); congruence] | split; [| reflexivity]]].
       intros c Hc. apply elem_of_cons in Hc as [-> | Hc]; eauto. }
  destruct (ipaddr_parse E address) as [addr | e3] eqn:H3.
  2: { split; [eauto | split; [split; [discriminate
         | intros (? & ? & ? & [= <-] & ? & ? & _); congruence] | split; [| reflexivity]]].
       intros c Hc. apply elem_of_cons in Hc as [-> | Hc]; eauto. }
  assert (Hcalls : forall (b : Outcome bool) c,
            c ∈ DnsLookup hostname :: calls w ->
            c ∈ calls w \/ exists h, Return hostname = Return h /\ c = DnsLookup h).
  { intros _ c Hc. apply elem_of_cons in Hc as [-> | Hc]; eauto. }
  destruct (String.eqb_spec (range addr) "unspecified") as [Hr | Hr];
    [| destruct (String.eqb_spec (range addr) "loopback") as [Hl | Hl];
       [| destruct (isPrivate addr) as [[] | e4] eqn:H4]];
    cbn [negb fst snd calls add_call roasts].
  all: split; [eauto |].
  all: split; [| split; [apply (Hcalls (Return true)) | reflexivity]].
  all: split; [try discriminate
              | intros (h' & a' & addr' & [= <-] & Ha & Hp & Hr' & Hl' & Hpriv)].
  all: try (rewrite H2 in Ha; injection Ha as <-; rewrite H3 in Hp;
            injection Hp as <-; congruence).
  intros _. eauto 10.
Qed.

(** [isPublicUrl] of [src/app.mjs] never throws: it answers a boolean whatever
    the URL parser, the resolver and ipaddr.js do.  It answers [true] exactly
    when the hostname resolves to an address that parses, whose range is
    neither unspecified nor loopback and for which [isPrivate()] answers
    [false]; every error on the way gives [false].  The DNS lookup of the
    hostname is the only call it makes, and no record changes. *)
Theorem isPublicUrl_fails_closed E u w :
  (exists b, fst (AppMjs.isPublicUrl E u w) = Return b) /\
  (fst (AppMjs.isPublicUrl E u w) = Return true <-> passes_gate E u) /\
  (forall c, c ∈ calls (snd (AppMjs.isPublicUrl E u w)) ->
     c ∈ calls w \/ exists hostname, URL_hostname E u = Return hostname /\
                                     c = DnsLookup hostname) /\
  roasts (snd (AppMjs.isPublicUrl E u w)) = roasts w.
Proof. exact (isPublicUrl_spec E u w). Qed.

Lemma string_or_not (v : json) : (exists u, v = JStr u) \/ (forall u, v <> JStr u).
Proof. destruct v; eauto; right; intros; discriminate. Qed.

Lemma invalid_url_not_string E v w :
  (forall s, v <> Some (JStr s)) ->
  Screenshot.invalid_url E v w = (Return true, w).
Proof.
  intros Hv. unfold Screenshot.invalid_url, ret.
  destruct v as [[] |]; try reflexivity.
  - destruct b; reflexivity.
  - cbn. destruct (n =? 0)%Z; reflexivity.
  - exfalso. exact (Hv s eq_refl).
Qed.

Lemma invalid_url_string E u w :
  Screenshot.invalid_url E (Some (JStr u)) w
  = (Return (negb (negb (String.eqb u "") && Nat.leb (String.length u) 2048
                   && isURL E u)), w).
Proof.
  unfold Screenshot.invalid_url, validURL, bind, ret. cbn [truthy negb].
  destruct (String.eqb u ""); cbn [negb andb Screenshot.is_string as_string];
    [reflexivity |].
  destruct (Nat.ltb_spec 2048 (String.length u)) as [Hlt | Hle];
    destruct (Nat.leb_spec (String.length u) 2048); try lia; reflexivity.
Qed.

(** [POST /screenshot] of [src/app.mjs] asks capture-website for a page only
    if that page is the request's [url], a non-empty string of at most 2048
    characters that validator.js accepts and that passes [isPublicUrl]. *)
Theorem POST_screenshot_captures_only_public E req w t :
  CaptureWebsite t ∈ calls (snd (AppMjs.POST_screenshot E req w)) ->
  CaptureWebsite t ∈ calls w \/
  (assoc "url" (body req) = Some (JStr t) /\ t <> "" /\
   (String.length t <= 2048)%nat /\ isURL E t = true /\ passes_gate E t).
Proof.
  unfold AppMjs.POST_screenshot, bind at 1 2. unfold console_log.
  destruct (assoc "url" (body req)) as [v |] eqn:Hurl.
  2: { rewrite invalid_url_not_string by (intros; discriminate). auto. }
  destruct (string_or_not v) as [[u ->] | Hv].
  2: { rewrite invalid_url_not_string by (intros s [= ->]; exact (Hv s eq_refl)).
       auto. }
  rewrite invalid_url_string.
  destruct (String.eqb_spec u "") as [-> | Hu]; [auto |].
  destruct (Nat.leb_spec (String.length u) 2048) as [Hlen | Hlen]; [| auto].
  destruct (isURL E u) eqn:Hvalid; [| auto].
  cbn [negb andb as_string]. unfold bind.
  pose proof (isPublicUrl_spec E u
    (add_line [LS "Received request with body:"; LJ (JObj (body req))] w))
    as ([b Hb] & Hgate & Hcalls & _).
  destruct (AppMjs.isPublicUrl E u _) as [[b' | e] w2]; cbn [fst snd] in *;
    [| discriminate].
  injection Hb as ->.
  assert (Hold : CaptureWebsite t ∈ calls w2 -> CaptureWebsite t ∈ calls w).
  { intros H. destruct (Hcalls _ H) as [H' | (h & _ & [=])]. exact H'. }
  destruct b; cbn [negb].
  - intros H.
    assert (Ht : CaptureWebsite t ∈ CaptureWebsite u :: calls w2).
    { revert H. unfold AppMjs.getScreenshot, Screenshot.analyzeImage,
        Screenshot.on_error, bind, try_catch, await, call, ret, throw,
        console_log, console_error.
      oracle_cases; intros H;
        repeat (apply elem_of_cons in H as [H | H];
                [first [discriminate H | rewrite H; in_list] |]);
        try (apply list_elem_of_further; exact H). }
    apply elem_of_cons in Ht as [[= ->] | Ht]; [right | left; auto].
    repeat split; try assumption. by apply Hgate.
  - unfold ret. cbn [snd]. auto.
Qed.

(** [POST /screenshot] of [src/app.mjs] when [addr.isPrivate()] never answers
    [false], as with ipaddr.js, whose addresses have no such method so that
    the call throws: [isPublicUrl] answers [false] for every URL, and so
    every request is answered with 400, whatever its body; no capture and no
    analysis is asked for, the DNS lookup is the only call, and nothing is
    stored. *)
Theorem AppMjs_gate_closed_without_isPrivate E req w :
  (forall address addr,
     ipaddr_parse E address = Return addr -> isPrivate addr <> Return false) ->
  (exists res, fst (AppMjs.POST_screenshot E req w) = Return res /\
               status res = 400) /\
  (forall u, truthy (assoc "url" (body req)) = true ->
     assoc "url" (body req) = Some (JStr u) ->
     (String.length u <= 2048)%nat -> isURL E u = true ->
     fst (AppMjs.POST_screenshot E req w) = Return AppMjs.not_public) /\
  (forall c, c ∈ calls (snd (AppMjs.POST_screenshot E req w)) ->
     c ∈ calls w \/ exists hostname, c = DnsLookup hostname) /\
  bucket (snd (AppMjs.POST_screenshot E req w)) = bucket w /\
  roasts (snd (AppMjs.POST_screenshot E req w)) = roasts w.
Proof.
  intros Hlib.
  assert (Hgate : forall u, ~ passes_gate E u).
  { intros u (h & a & addr & _ & _ & Hp & _ & _ & Hpriv).
    exact (Hlib a addr Hp Hpriv). }
  assert (Hclosed : forall u w0,
            exists w1, AppMjs.isPublicUrl E u w0 = (Return false, w1) /\
                       (forall c, c ∈ calls w1 ->
                          c ∈ calls w0 \/ exists hostname, c = DnsLookup hostname) /\
                       bucket w1 = bucket w0 /\ roasts w1 = roasts w0).
  { intros u w0.
    destruct (isPublicUrl_spec E u w0) as ([b Hb] & Hiff & Hcalls & Hroasts).
    assert (Hbucket : bucket (snd (AppMjs.isPublicUrl E u w0)) = bucket w0).
    { unfold AppMjs.isPublicUrl, bind, try_catch, await, call, ret.
      oracle_cases; reflexivity. }
    destruct (AppMjs.isPublicUrl E u w0) as [o w1]. cbn [fst snd] in *.
    exists w1. destruct b.
    - exfalso. exact (Hgate u (proj1 Hiff Hb)).
    - subst o. split; [reflexivity | split; [| split; assumption]].
      intros c Hc. destruct (Hcalls c Hc) as [? | (h & _ & ->)]; eauto. }
  assert (Hmain : exists res w',
            AppMjs.POST_screenshot E req w = (Return res, w') /\
            status res = 400 /\
            (forall u, truthy (assoc "url" (body req)) = true ->
               assoc "url" (body req) = Some (JStr u) ->
               (String.length u <= 2048)%nat -> isURL E u = true ->
               res = AppMjs.not_public) /\
            (forall c, c ∈ calls w' ->
               c ∈ calls w \/ exists hostname, c = DnsLookup hostname) /\
            bucket w' = bucket w /\ roasts w' = roasts w).
  { unfold AppMjs.POST_screenshot, bind at 1 2. unfold console_log.
    destruct (assoc "url" (body req)) as [v |] eqn:Hurl.
    2: { rewrite invalid_url_not_string by (intros; discriminate).
         unfold ret. eexists _, _. split; [reflexivity |].
         cbn [calls bucket roasts add_line].
         split; [reflexivity | split; [intros; discriminate |]].
         split; [intros c Hc; left; exact Hc | split; reflexivity]. }
    destruct (string_or_not v) as [[u ->] | Hv].
    2: { rewrite invalid_url_not_string by (intros s [= ->]; exact (Hv s eq_refl)).
         unfold ret. eexists _, _. split; [reflexivity |].
         cbn [calls bucket roasts add_line].
         split; [reflexivity |].
         split; [intros u _ [= ->]; exfalso; exact (Hv u eq_refl) |].
         split; [intros c Hc; left; exact Hc | split; reflexivity]. }
    rewrite invalid_url_string.
    destruct (negb (String.eqb u "") && Nat.leb (String.length u) 2048 && isURL E u)
      eqn:Hok; cbn [negb].
    - cbn [as_string]. unfold bind.
      destruct (Hclosed u
        (add_line [LS "Received request with body:"; LJ (JObj (body req))] w))
        as (w1 & -> & Hcalls & Hbucket & Hroasts).
      cbn [negb]. unfold ret. eexists _, _. split; [reflexivity |].
      split; [reflexivity | split; [intros; reflexivity |]].
      split; [exact Hcalls | split; assumption].
    - unfold ret. eexists _, _. split; [reflexivity |].
      cbn [calls bucket roasts add_line].
      split; [reflexivity |].
      split; [| split; [intros c Hc; left; exact Hc | split; reflexivity]].
      intros u' Ht [= <-] Hlen Hvalid. exfalso.
      cbn in Ht. rewrite Ht, Hvalid in Hok.
      destruct (Nat.leb_spec (String.length u) 2048); [discriminate | lia]. }
  destruct Hmain as (res & w' & -> & Hst & Hnp & Hcalls & Hbucket & Hroasts).
  cbn [fst snd].
  split; [eexists; split; [reflexivity | exact Hst] |].
  split; [intros u H1 H2 H3 H4; f_equal; exact (Hnp u H1 H2 H3 H4) |].
  split; [exact Hcalls | split; assumption].
Qed.

(** ** Validation of [url], beyond strings *)

(** A request without [url], or with a falsy one (null, false, 0, the empty
    string), is answered with 400 by the three POST handlers, each with its
    own message, and no outside service is called. *)
Theorem falsy_url_is_400 E req w :
  truthy (assoc "url" (body req)) = false ->
  (fst (RoastServer.POST_roast E req w)
   = Return (res_status_json 400 (error_body "A valid URL is required.")) /\
   calls (snd (RoastServer.POST_roast E req w)) = calls w) /\
  (fst (AppMjs.POST_screenshot E req w)
   = Return (res_status_json 400 (error_body "URL is required.")) /\
   calls (snd (AppMjs.POST_screenshot E req w)) = calls w) /\
  (fst (ClassifyingServer.POST_screenshot E req w)
   = Return (res_status_json 400 (error_body "URL is required.")) /\
   calls (snd (ClassifyingServer.POST_screenshot E req w)) = calls w).
Proof.
  intros Hf.
  unfold RoastServer.POST_roast, AppMjs.POST_screenshot,
    ClassifyingServer.POST_screenshot, Screenshot.invalid_url,
    Screenshot.invalid_url_response, bind, ret, console_log.
  rewrite Hf. cbn [negb fst snd calls add_line]. repeat split.
Qed.

(** A truthy [url] that is not a string (a number, true, an array, an
    object): [POST /roast] hands it to validator.js outside any [try], so the
    handler ends in the exception of [validator.isURL] and sends no response;
    both [POST /screenshot] handlers test [typeof url] first and answer 400.
    No outside service is called in either case. *)
Theorem non_string_url_throws_on_roast E req w v :
  assoc "url" (body req) = Some v ->
  truthy (Some v) = true ->
  (forall s, v <> JStr s) ->
  ((exists e, fst (RoastServer.POST_roast E req w) = Throw e) /\
   calls (snd (RoastServer.POST_roast E req w)) = calls w) /\
  (fst (AppMjs.POST_screenshot E req w)
   = Return (res_status_json 400 (error_body
       "Invalid URL format. A valid URL (including http:// or https://) is required.")) /\
   calls (snd (AppMjs.POST_screenshot E req w)) = calls w) /\
  (fst (ClassifyingServer.POST_screenshot E req w)
   = Return (res_status_json 400 (error_body
       "Invalid URL format. A valid URL (including http:// or https://) is required.")) /\
   calls (snd (ClassifyingServer.POST_screenshot E req w)) = calls w).
Proof.
  intros Hurl Ht Hv.
  unfold RoastServer.POST_roast, AppMjs.POST_screenshot,
    ClassifyingServer.POST_screenshot, Screenshot.invalid_url,
    Screenshot.invalid_url_response, validURL, bind, ret, throw, console_log.
  rewrite Hurl, Ht. cbn [negb].
  destruct v as [| b | n | n d | s | l | f];
    try (exfalso; exact (Hv s eq_refl));
    cbn [Screenshot.is_string negb fst snd calls add_line];
    (split; [split; [eexists; reflexivity | reflexivity] | split; split; reflexivity]).
Qed.

(** [POST /roast] calls an outside service (APIFlash, the storage, the
    provider, the database) only for a [url] that is a non-empty string
    accepted by validator.js. *)
Theorem POST_roast_calls_only_for_valid_url E req w :
  calls (snd (RoastServer.POST_roast E req w)) <> calls w ->
  exists u, assoc "url" (body req) = Some (JStr u) /\ u <> "" /\ isURL E u = true.
Proof.
  intros Hcalls.
  assert (Hno : forall P : Prop,
            calls (snd (RoastServer.POST_roast E req w)) = calls w -> P)
    by (intros P H; contradiction).
  clear Hcalls.
  destruct (assoc "url" (body req)) as [[| b | n | n d | u | l | f] |] eqn:Hurl.
  all: try (apply Hno;
            unfold RoastServer.POST_roast, validURL, bind, ret, throw, console_log;
            rewrite Hurl; cbn [truthy negb];
            repeat match goal with
              | |- context [if ?c then _ else _] => destruct c
              end; reflexivity).
  exists u. split; [reflexivity |].
  destruct (String.eqb_spec u "") as [-> | Hu].
  { apply Hno. unfold RoastServer.POST_roast, bind, ret, console_log.
    rewrite Hurl. reflexivity. }
  split; [exact Hu |].
  destruct (isURL E u) eqn:Hvalid; [reflexivity |].
  apply Hno. unfold RoastServer.POST_roast, validURL, bind, ret, console_log.
  rewrite Hurl, (truthy_string u Hu). cbn [negb]. rewrite Hvalid. reflexivity.
Qed.

(** ** APIFlash without its key *)

(** Without [APIFLASH_API_KEY] (unset or empty) a valid [POST /roast] is
    answered with 500 and the generic message; APIFlash is not asked, nothing
    is stored, no record is written, and the reason is logged. *)
Theorem POST_roast_without_api_key E req w u :
  assoc "url" (body req) = Some (JStr u) ->
  u <> "" ->
  isURL E u = true ->
  apiFlashKey E = None \/ apiFlashKey E = Some "" ->
  fst (RoastServer.POST_roast E req w) = Return RoastServer.unexpected_error /\
  calls (snd (RoastServer.POST_roast E req w)) = calls w /\
  bucket (snd (RoastServer.POST_roast E req w)) = bucket w /\
  roasts (snd (RoastServer.POST_roast E req w)) = roasts w /\
  [LS "Error processing request:"; LS "APIFlash API key is not configured."]
    ∈ console (snd (RoastServer.POST_roast E req w)).
Proof.
  intros Hurl Hu Hvalid Hkey.
  eff_unfold. rewrite Hurl, (truthy_string u Hu). cbn [negb validURL as_string].
  unfold ret. rewrite Hvalid. cbn [negb].
  destruct Hkey as [-> | ->]; cbn; repeat split; in_list.
Qed.

(** ** The [/screenshot] servers, end to end *)

(** The classifying [POST /screenshot] of [src/unnamed/part_001]: whenever
    capture-website fails on a valid URL the answer is 400 with the message
    [getScreenshot] chose for the error, and the capture is the only call:
    the provider is not asked. *)
Theorem POST_screenshot_capture_failure_is_classified E req w u e :
  assoc "url" (body req) = Some (JStr u) ->
  u <> "" -> (String.length u <= 2048)%nat -> isURL E u = true ->
  captureWebsite_base64 E u = Throw e ->
  fst (ClassifyingServer.POST_screenshot E req w)
  = Return (res_status_json 400 (error_body (classified e))) /\
  calls (snd (ClassifyingServer.POST_screenshot E req w))
  = CaptureWebsite u :: calls w.
Proof.
  intros Hurl Hu Hlen Hvalid He.
  unfold ClassifyingServer.POST_screenshot, ClassifyingServer.getScreenshot,
    Screenshot.on_error, classified, bind, try_catch, await, call, ret, throw,
    console_log, console_error.
  rewrite Hurl, (invalid_url_false E u _ Hu Hlen Hvalid).
  cbn [as_string]. rewrite He.
  destruct (includes (message e) "ERR_NAME_NOT_RESOLVED");
    [| destruct (includes (message e) "Navigation timeout")];
    split; reflexivity.
Qed.

(** [POST /screenshot] when the capture succeeds and the provider fails: the
    answer is 500 with the generic message, whatever the provider's error,
    whose message goes to the log only.  The same holds for [src/app.mjs]
    once the URL is through its gate. *)
Theorem POST_screenshot_analysis_failure_is_generic E req w u img e :
  assoc "url" (body req) = Some (JStr u) ->
  u <> "" -> (String.length u <= 2048)%nat -> isURL E u = true ->
  captureWebsite_base64 E u = Return img ->
  openai_create E ("data:image/png;base64," +:+ img) = Throw e ->
  fst (ClassifyingServer.POST_screenshot E req w)
  = Return (res_status_json 500
              (error_body "An unexpected error occurred. Please try again later.")) /\
  [LS "Failed to analyze screenshot with OpenAI Vision:"; LS (message e)]
    ∈ console (snd (ClassifyingServer.POST_screenshot E req w)) /\
  (passes_gate E u ->
   fst (AppMjs.POST_screenshot E req w)
   = Return (res_status_json 500
               (error_body "An unexpected error occurred. Please try again later."))).
Proof.
  intros Hurl Hu Hlen Hvalid Himg He.
  split; [| split].
  - unfold ClassifyingServer.POST_screenshot, ClassifyingServer.getScreenshot,
      Screenshot.analyzeImage, Screenshot.on_error, bind, try_catch, await,
      call, ret, throw, console_log, console_error.
    rewrite Hurl, (invalid_url_false E u _ Hu Hlen Hvalid).
    cbn [as_string]. rewrite Himg, He. reflexivity.
  - unfold ClassifyingServer.POST_screenshot, ClassifyingServer.getScreenshot,
      Screenshot.analyzeImage, Screenshot.on_error, bind, try_catch, await,
      call, ret, throw, console_log, console_error.
    rewrite Hurl, (invalid_url_false E u _ Hu Hlen Hvalid).
    cbn [as_string]. rewrite Himg, He. cbn. in_list.
  - intros (h & a & addr & Hh & Ha & Hp & Hr & Hl & Hpriv).
    unfold AppMjs.POST_screenshot, AppMjs.isPublicUrl, AppMjs.getScreenshot,
      Screenshot.analyzeImage, Screenshot.on_error, bind, try_catch, await,
      call, ret, throw, console_log, console_error.
    rewrite Hurl, (invalid_url_false E u _ Hu Hlen Hvalid).
    cbn [as_string]. rewrite Hh, Ha, Hp.
    destruct (String.eqb_spec (range addr) "unspecified"); [contradiction |].
    destruct (String.eqb_spec (range addr) "loopback"); [contradiction |].
    cbn [negb]. rewrite Hpriv. cbn [negb]. rewrite Himg, He. reflexivity.
Qed.

(** [POST /screenshot] of [src/unnamed/part_001], the good case: the answer
    is 200 with the decoded critique under [analysis] and the captured image
    under [screenshot]; the calls are the capture and then the provider, on
    the captured image, and nothing is stored. *)
Theorem POST_screenshot_success E req w u img content j :
  assoc "url" (body req) = Some (JStr u) ->
  u <> "" -> (String.length u <= 2048)%nat -> isURL E u = true ->
  captureWebsite_base64 E u = Return img ->
  openai_create E ("data:image/png;base64," +:+ img) = Return content ->
  JSON_parse E content = Return j ->
  fst (ClassifyingServer.POST_screenshot E req w)
  = Return (res_status_json 200
              (JObj [("analysis", j); ("screenshot", JStr img)])) /\
  calls (snd (ClassifyingServer.POST_screenshot E req w))
  = OpenAiCreate ("data:image/png;base64," +:+ img) :: CaptureWebsite u :: calls w /\
  bucket (snd (ClassifyingServer.POST_screenshot E req w)) = bucket w /\
  roasts (snd (ClassifyingServer.POST_screenshot E req w)) = roasts w.
Proof.
  intros Hurl Hu Hlen Hvalid Himg Hc Hj.
  unfold ClassifyingServer.POST_screenshot, ClassifyingServer.getScreenshot,
    Screenshot.analyzeImage, Screenshot.on_error, bind, try_catch, await,
    call, ret, throw, console_log, console_error.
  rewrite Hurl, !(invalid_url_false E u _ Hu Hlen Hvalid).
  cbn [as_string]. rewrite Himg, Hc, Hj.
  repeat split.
Qed.

(** ** The commit, call by call *)

(** The commit of [POST /roast] always starts both the upload, under
    [public/<uuid>.webp], and the analysis of the image, whichever of them
    fails; a database insert is made only with the fresh UUID as id and only
    after the upload gave data and the provider's content was decoded. *)
Theorem commit_starts_both_operations E req u v img w :
  let path := "public/" +:+ randomUUID E +:+ ".webp" in
  let imageUrl := "data:image/png;base64," +:+ toString_base64 E img in
  let w' := snd (RoastServer.commit E req u v img w) in
  StorageUpload path img ∈ calls w' /\
  OpenAiCreate imageUrl ∈ calls w' /\
  (forall rowId, DbInsert rowId ∈ calls w' ->
     DbInsert rowId ∈ calls w \/
     (rowId = randomUUID E /\
      exists p content j,
        storage_upload E path img = Return (UploadData p) /\
        openai_create E imageUrl = Return content /\
        JSON_parse E content = Return j)).
Proof.
  cbv zeta. eff_unfold. oracle_cases.
  all: split; [in_list | split; [in_list |]].
  all: intros rowId H.
  all: repeat (apply elem_of_cons in H as [H | H];
               [first [discriminate H | injection H as ->] |]);
       eauto 10.
Qed.

(** A commit that fails after the upload succeeded (the provider failed, its
    content did not decode, or the insert was refused) leaves the uploaded
    image in the bucket and writes no record: the code never removes the
    asset.  Its calls are the upload, the analysis and at most the insert. *)
Theorem failed_commit_leaves_the_asset E req u v img w p e :
  storage_upload E ("public/" +:+ randomUUID E +:+ ".webp") img
  = Return (UploadData p) ->
  fst (RoastServer.commit E req u v img w) = Throw e ->
  bucket (snd (RoastServer.commit E req u v img w)) = (p, img) :: bucket w /\
  roasts (snd (RoastServer.commit E req u v img w)) = roasts w /\
  (forall c, c ∈ calls (snd (RoastServer.commit E req u v img w)) ->
     c ∈ calls w \/ c = StorageUpload ("public/" +:+ randomUUID E +:+ ".webp") img \/
     c = OpenAiCreate ("data:image/png;base64," +:+ toString_base64 E img) \/
     c = DbInsert (randomUUID E)).
Proof.
  intros Hup. eff_unfold. rewrite Hup.
  cbn [fst snd add_call add_line add_object add_row calls console bucket roasts].
  oracle_cases; intros He; try discriminate He.
  all: split; [reflexivity | split; [reflexivity |]].
  all: intros c H;
       repeat (apply elem_of_cons in H as [H | H]; [subst c; auto |]); auto.
Qed.

(** A commit that succeeds writes exactly one record and stores exactly one
    asset: the asset lies under [public/<id of the record>.webp], the record's
    [screenshot_url] is the public URL of that asset, its [url] is the
    request's, its [visitor_id] the request's or null, and the response is 200
    with that record. *)
Theorem committed_record_matches_asset E req u v img w res :
  fst (RoastServer.commit E req u v img w) = Return res ->
  exists row p,
    roasts (snd (RoastServer.commit E req u v img w)) = row :: roasts w /\
    bucket (snd (RoastServer.commit E req u v img w)) = (p, img) :: bucket w /\
    storage_upload E ("public/" +:+ id row +:+ ".webp") img = Return (UploadData p) /\
    screenshot_url row = getPublicUrl E p /\
    url row = u /\
    created_at row = time req /\
    visitor_id row = (if truthy v then default JNull v else JNull) /\
    insert_error E row = None /\
    res = res_status_json 200 (RoastServer.row_json row).
Proof.
  eff_unfold. oracle_cases; intros [= <-].
  all: eexists _, _; repeat split; cbn [id visitor_id RoastServer.roast_row];
    try eassumption.
  all: match goal with H : truthy _ = _ |- _ => rewrite H end; reflexivity.
Qed.

(** ** Reading back what was committed *)

Lemma commit_success_row E req u v img w res :
  fst (RoastServer.commit E req u v img w) = Return res ->
  exists row,
    roasts (snd (RoastServer.commit E req u v img w)) = row :: roasts w /\
    id row = randomUUID E /\
    visitor_id row = (if truthy v then default JNull v else JNull) /\
    res = res_status_json 200 (RoastServer.row_json row).
Proof.
  eff_unfold. oracle_cases; intros [= <-].
  all: eexists; repeat split; cbn [visitor_id RoastServer.roast_row].
  all: match goal with H : truthy _ = _ |- _ => rewrite H end; reflexivity.
Qed.

Lemma eq_id_absent x l :
  (forall r, r ∈ l -> id r <> x) -> RoastServer.eq_id x l = [].
Proof.
  intros H. unfold RoastServer.eq_id. induction l as [| r l IH]; [reflexivity |].
  cbn. destruct (String.eqb_spec (id r) x) as [Heq | _].
  - exfalso. exact (H r (list_elem_of_here _ _) Heq).
  - apply IH. intros r' Hr'. apply H. by apply list_elem_of_further.
Qed.

(** Round trip: after a successful commit, [GET /roasts/:id] with the new id
    answers exactly what [POST /roast] answered, provided the id was not in
    use and the query does not fail. *)
Theorem committed_roast_is_found_by_id E req u v img w res :
  fst (RoastServer.commit E req u v img w) = Return res ->
  isUUID E (randomUUID E) = true ->
  select_error E = None ->
  (forall r, r ∈ roasts w -> id r <> randomUUID E) ->
  fst (RoastServer.GET_roasts_id E (randomUUID E)
         (snd (RoastServer.commit E req u v img w)))
  = Return res.
Proof.
  intros Hc Huuid Hsel Hfresh.
  destruct (commit_success_row E req u v img w res Hc) as (row & Hrows & Hid & _ & ->).
  unfold RoastServer.GET_roasts_id. rewrite Huuid. cbn [negb].
  unfold RoastServer.db_select, bind, try_catch, call, ret.
  rewrite Hsel. cbn [roasts add_call]. rewrite Hrows.
  unfold RoastServer.eq_id. cbn [List.filter]. rewrite Hid, String.eqb_refl.
  fold (RoastServer.eq_id (randomUUID E) (roasts w)).
  rewrite (eq_id_absent _ _ Hfresh). reflexivity.
Qed.

Lemma GET_roasts_mine_data E visitorId w :
  visitorId <> "" ->
  isUUID E visitorId = true ->
  select_error E = None ->
  fst (RoastServer.GET_roasts_mine E visitorId w)
  = Return (res_status_json 200
      (JArr (map RoastServer.row_json
               (RoastServer.order_created_at_desc
                  (RoastServer.eq_visitor_id visitorId (roasts w)))))).
Proof.
  intros Hv Huuid Hsel.
  unfold RoastServer.GET_roasts_mine. rewrite (truthy_string _ Hv), Huuid.
  eff_unfold. rewrite Hsel. reflexivity.
Qed.

(** Round trip: after a successful commit with a [visitorId],
    [GET /roasts/mine/:visitorId] answers 200 with a list that has the record
    [POST /roast] answered. *)
Theorem committed_roast_is_listed_for_its_visitor E req u visitorId img w res :
  visitorId <> "" ->
  fst (RoastServer.commit E req u (Some (JStr visitorId)) img w) = Return res ->
  isUUID E visitorId = true ->
  select_error E = None ->
  exists data row,
    fst (RoastServer.GET_roasts_mine E visitorId
           (snd (RoastServer.commit E req u (Some (JStr visitorId)) img w)))
    = Return (res_status_json 200 (JArr (map RoastServer.row_json data))) /\
    row ∈ data /\
    res = res_status_json 200 (RoastServer.row_json row).
Proof.
  intros Hv Hc Huuid Hsel.
  destruct (commit_success_row E req u _ img w res Hc) as (row & Hrows & _ & Hvis & ->).
  rewrite (truthy_string _ Hv) in Hvis. cbn in Hvis.
  eexists _, row. split; [apply (GET_roasts_mine_data E visitorId _ Hv Huuid Hsel) |].
  split; [| reflexivity].
  rewrite order_desc_Permutation, Hrows.
  unfold RoastServer.eq_visitor_id. cbn [List.filter].
  unfold RoastServer.visitor_is at 1. rewrite Hvis, String.eqb_refl.
  apply list_elem_of_here.
Qed.

(** A roast committed without [visitorId] (absent or falsy) is stored with a
    null [visitor_id], so the rows selected for any visitor are the same
    before and after. *)
Theorem roast_without_visitor_is_listed_for_nobody E req u v img w res visitorId :
  truthy v = false ->
  fst (RoastServer.commit E req u v img w) = Return res ->
  RoastServer.eq_visitor_id visitorId
    (roasts (snd (RoastServer.commit E req u v img w)))
  = RoastServer.eq_visitor_id visitorId (roasts w).
Proof.
  intros Hv Hc.
  destruct (commit_success_row E req u v img w res Hc) as (row & -> & _ & Hvis & _).
  rewrite Hv in Hvis.
  unfold RoastServer.eq_visitor_id. cbn [List.filter].
  unfold RoastServer.visitor_is at 1. rewrite Hvis. reflexivity.
Qed.

(** ** [GET /roasts] and [GET /roasts/:id] *)

Global Instance newer_or_same_trans : Transitive newer_or_same.
Proof. intros x y z. unfold newer_or_same. lia. Qed.

(** [GET /roasts] answers the three newest records, newest first (all of
    them if there are fewer): the answer and the records left out are
    together the table, and no record left out is newer than one answered.  A
    failing query gives 500 [Failed to fetch roasts.].  The table is not
    changed. *)
Theorem GET_roasts_three_newest E w :
  (select_error E = None ->
   exists data rest,
     fst (RoastServer.GET_roasts E w)
     = Return (res_status_json 200 (JArr (map RoastServer.row_json data))) /\
     length data = Nat.min 3 (length (roasts w)) /\
     data ++ rest ≡ₚ roasts w /\
     Sorted newer_or_same data /\
     (forall r r', r ∈ data -> r' ∈ rest -> created_at r' <= created_at r)) /\
  (forall e, select_error E = Some e ->
     fst (RoastServer.GET_roasts E w)
     = Return (res_status_json 500 (error_body "Failed to fetch roasts."))) /\
  roasts (snd (RoastServer.GET_roasts E w)) = roasts w.
Proof.
  split; [| split].
  - intros Hsel.
    exists (take 3 (RoastServer.order_created_at_desc (roasts w))),
           (drop 3 (RoastServer.order_created_at_desc (roasts w))).
    pose proof (order_desc_Sorted (roasts w)) as Hs.
    apply Sorted_StronglySorted in Hs; [| apply _].
    rewrite <- (take_drop 3 (RoastServer.order_created_at_desc (roasts w))) in Hs.
    split; [| split; [| split; [| split]]].
    + unfold RoastServer.GET_roasts. eff_unfold. rewrite Hsel. reflexivity.
    + rewrite length_take. by rewrite order_desc_Permutation.
    + rewrite take_drop. apply order_desc_Permutation.
    + apply StronglySorted_Sorted. by eapply StronglySorted_app_1_l.
    + intros r r' Hr Hr'. exact (StronglySorted_app_1_elem_of _ _ _ _ _ Hs Hr Hr').
  - intros e Hsel. unfold RoastServer.GET_roasts. eff_unfold. rewrite Hsel.
    reflexivity.
  - unfold RoastServer.GET_roasts. eff_unfold.
    destruct (select_error E); reflexivity.
Qed.

(** [GET /roasts/:id]: an id that is not a UUID is answered with 400 before
    any query; a failing query, no row and more than one row are all answered
    with 404; exactly one row is answered with 200 and that row, whose id is
    the one asked for.  No other status is sent and the table is not
    changed. *)
Theorem GET_roasts_id_answers E x w :
  (isUUID E x = false ->
   RoastServer.GET_roasts_id E x w
   = (Return (res_status_json 400 (error_body "Invalid roast ID format.")), w)) /\
  (isUUID E x = true ->
   (forall e, select_error E = Some e ->
      fst (RoastServer.GET_roasts_id E x w)
      = Return (res_status_json 404 (error_body "Roast not found."))) /\
   (select_error E = None ->
    (forall r, RoastServer.eq_id x (roasts w) = [r] ->
       fst (RoastServer.GET_roasts_id E x w)
       = Return (res_status_json 200 (RoastServer.row_json r)) /\ id r = x) /\
    ((forall r, RoastServer.eq_id x (roasts w) <> [r]) ->
       fst (RoastServer.GET_roasts_id E x w)
       = Return (res_status_json 404 (error_body "Roast not found."))))) /\
  (forall res, fst (RoastServer.GET_roasts_id E x w) = Return res ->
               status res = 200 \/ status res = 400 \/ status res = 404) /\
  roasts (snd (RoastServer.GET_roasts_id E x w)) = roasts w.
Proof.
  unfold RoastServer.GET_roasts_id, RoastServer.db_select, RoastServer.single,
    bind, try_catch, call, ret, console_error.
  destruct (isUUID E x); cbn [negb].
  2: { repeat split; try discriminate. intros res [= <-]. cbn. auto. }
  split; [discriminate |]. split.
  - intros _. split.
    + intros e ->. reflexivity.
    + intros ->. cbn [roasts add_call]. split.
      * intros r Hr. rewrite Hr. split; [reflexivity |].
        assert (Hin : r ∈ RoastServer.eq_id x (roasts w))
          by (rewrite Hr; apply list_elem_of_here).
        unfold RoastServer.eq_id in Hin.
        rewrite list_elem_of_In, filter_In in Hin.
        destruct Hin as [_ Hin]. by apply String.eqb_eq.
      * intros Hnone.
        destruct (RoastServer.eq_id x (roasts w)) as [| r [| r' l]];
          [reflexivity | | reflexivity].
        exfalso. by eapply Hnone.
  - split.
    + destruct (select_error E); cbn [roasts add_call fst];
        [intros res [= <-]; cbn; auto |].
      destruct (RoastServer.eq_id x (roasts w)) as [| r [| r' l]];
        intros res [= <-]; cbn; auto.
    + destruct (select_error E); cbn [roasts add_call fst snd]; [reflexivity |].
      destruct (RoastServer.eq_id x (roasts w)) as [| r [| r' l]]; reflexivity.
Qed.

(** [GET /roasts/mine/:visitorId]: an empty or non-UUID visitor id is
    answered with 400 before any query, a failing query with 404; the table
    is not changed. *)
Theorem GET_roasts_mine_rejections E visitorId w :
  (visitorId = "" \/ isUUID E visitorId = false ->
   RoastServer.GET_roasts_mine E visitorId w
   = (Return (res_status_json 400 (error_body "Invalid visitor ID format.")), w)) /\
  (visitorId <> "" -> isUUID E visitorId = true ->
   forall e, select_error E = Some e ->
     fst (RoastServer.GET_roasts_mine E visitorId w)
     = Return (res_status_json 404 (error_body "No roasts found for this visitor."))) /\
  roasts (snd (RoastServer.GET_roasts_mine E visitorId w)) = roasts w.
Proof.
  unfold RoastServer.GET_roasts_mine, RoastServer.db_select,
    bind, try_catch, call, ret, console_error.
  split; [| split].
  - intros [-> | H]; [reflexivity |]. rewrite H.
    by rewrite orb_true_r.
  - intros Hv Huuid e Hsel. rewrite (truthy_string _ Hv), Huuid, Hsel. reflexivity.
  - destruct (negb _ || negb _); [reflexivity |].
    destruct (select_error E); reflexivity.
Qed.

(** ** The theorems above, at examples *)

Lemma Examples_site_passes_gate E :
  URL_hostname E Examples.site = Return "example.com" ->
  dns_lookup E "example.com" = Return "93.184.216.34" ->
  ipaddr_parse E "93.184.216.34" = Return Examples.public_address ->
  passes_gate E Examples.site.
Proof.
  intros H1 H2 H3. exists "example.com", "93.184.216.34", Examples.public_address.
  repeat split; first [assumption | discriminate | reflexivity].
Defined.

Lemma POST_screenshot_captures_only_public_witness :
  CaptureWebsite Examples.site ∈ calls Demo.empty_world \/
  (assoc "url" (body (Examples.request [("url", JStr Examples.site)]))
   = Some (JStr Examples.site) /\
   Examples.site <> "" /\
   (String.length Examples.site <= 2048)%nat /\
   isURL Demo.all_succeed Examples.site = true /\
   passes_gate Demo.all_succeed Examples.site).
Proof.
  apply (POST_screenshot_captures_only_public Demo.all_succeed
           (Examples.request [("url", JStr Examples.site)]) Demo.empty_world
           Examples.site).
  change (calls (snd (AppMjs.POST_screenshot Demo.all_succeed
                        (Examples.request [("url", JStr Examples.site)])
                        Demo.empty_world)))
    with [CaptureWebsite Examples.site; DnsLookup "example.com"].
  apply list_elem_of_here.
Defined.

Lemma falsy_url_is_400_witness :
  fst (RoastServer.POST_roast Demo.all_succeed (Examples.request []) Demo.empty_world)
  = Return (res_status_json 400 (error_body "A valid URL is required.")) /\
  calls (snd (RoastServer.POST_roast Demo.all_succeed (Examples.request [])
                Demo.empty_world))
  = calls Demo.empty_world.
Proof.
  exact (proj1 (falsy_url_is_400 Demo.all_succeed (Examples.request [])
                  Demo.empty_world eq_refl)).
Defined.

Lemma non_string_url_throws_on_roast_witness :
  (exists e,
     fst (RoastServer.POST_roast Demo.all_succeed
            (Examples.request [("url", JInt 5)]) Demo.empty_world) = Throw e) /\
  calls (snd (RoastServer.POST_roast Demo.all_succeed
                (Examples.request [("url", JInt 5)]) Demo.empty_world))
  = calls Demo.empty_world.
Proof.
  refine (proj1 (non_string_url_throws_on_roast Demo.all_succeed
                   (Examples.request [("url", JInt 5)]) Demo.empty_world
                   (JInt 5) eq_refl eq_refl _)).
  intros s. discriminate.
Defined.

Lemma POST_roast_calls_only_for_valid_url_witness :
  exists u,
    assoc "url" (body (Examples.request [("url", JStr Examples.site)]))
    = Some (JStr u) /\
    u <> "" /\ isURL Demo.all_succeed u = true.
Proof.
  apply (POST_roast_calls_only_for_valid_url Demo.all_succeed
           (Examples.request [("url", JStr Examples.site)]) Demo.empty_world).
  intros H. apply (f_equal length) in H. vm_compute in H. discriminate H.
Defined.

Lemma POST_roast_without_api_key_witness :
  fst (RoastServer.POST_roast Examples.no_key
         (Examples.request [("url", JStr Examples.site)]) Demo.empty_world)
  = Return RoastServer.unexpected_error /\
  calls (snd (RoastServer.POST_roast Examples.no_key
                (Examples.request [("url", JStr Examples.site)]) Demo.empty_world))
  = calls Demo.empty_world /\
  bucket (snd (RoastServer.POST_roast Examples.no_key
                 (Examples.request [("url", JStr Examples.site)]) Demo.empty_world))
  = bucket Demo.empty_world /\
  roasts (snd (RoastServer.POST_roast Examples.no_key
                 (Examples.request [("url", JStr Examples.site)]) Demo.empty_world))
  = roasts Demo.empty_world /\
  [LS "Error processing request:"; LS "APIFlash API key is not configured."]
    ∈ console (snd (RoastServer.POST_roast Examples.no_key
                      (Examples.request [("url", JStr Examples.site)])
                      Demo.empty_world)).
Proof.
  apply (POST_roast_without_api_key Examples.no_key
           (Examples.request [("url", JStr Examples.site)]) Demo.empty_world
           Examples.site).
  - reflexivity.
  - discriminate.
  - reflexivity.
  - left. reflexivity.
Defined.

Lemma POST_screenshot_capture_failure_is_classified_witness :
  fst (ClassifyingServer.POST_screenshot Demo.all_succeed
         (Examples.request [("url", JStr Examples.site)]) Demo.empty_world)
  = Return (res_status_json 400
              (error_body (classified (Error "Navigation timeout of 30000 ms exceeded")))) /\
  calls (snd (ClassifyingServer.POST_screenshot Demo.all_succeed
                (Examples.request [("url", JStr Examples.site)]) Demo.empty_world))
  = CaptureWebsite Examples.site :: calls Demo.empty_world.
Proof.
  apply (POST_screenshot_capture_failure_is_classified Demo.all_succeed
           (Examples.request [("url", JStr Examples.site)]) Demo.empty_world
           Examples.site (Error "Navigation timeout of 30000 ms exceeded")).
  - reflexivity.
  - discriminate.
  - vm_compute. lia.
  - reflexivity.
  - reflexivity.
Defined.

Lemma POST_screenshot_analysis_failure_is_generic_witness :
  fst (ClassifyingServer.POST_screenshot Examples.captures_provider_fails
         (Examples.request [("url", JStr Examples.site)]) Demo.empty_world)
  = Return (res_status_json 500
              (error_body "An unexpected error occurred. Please try again later.")).
Proof.
  refine (proj1 (POST_screenshot_analysis_failure_is_generic
                   Examples.captures_provider_fails
                   (Examples.request [("url", JStr Examples.site)]) Demo.empty_world
                   Examples.site "aW1hZ2U=" Demo.provider_error
                   eq_refl _ _ eq_refl eq_refl eq_refl)).
  - discriminate.
  - vm_compute. lia.
Defined.

Lemma POST_screenshot_success_witness :
  fst (ClassifyingServer.POST_screenshot Examples.captures
         (Examples.request [("url", JStr Examples.site)]) Demo.empty_world)
  = Return (res_status_json 200
              (JObj [("analysis", JObj []); ("screenshot", JStr "aW1hZ2U=")])) /\
  calls (snd (ClassifyingServer.POST_screenshot Examples.captures
                (Examples.request [("url", JStr Examples.site)]) Demo.empty_world))
  = OpenAiCreate ("data:image/png;base64," +:+ "aW1hZ2U=")
      :: CaptureWebsite Examples.site :: calls Demo.empty_world /\
  bucket (snd (ClassifyingServer.POST_screenshot Examples.captures
                 (Examples.request [("url", JStr Examples.site)]) Demo.empty_world))
  = bucket Demo.empty_world /\
  roasts (snd (ClassifyingServer.POST_screenshot Examples.captures
                 (Examples.request [("url", JStr Examples.site)]) Demo.empty_world))
  = roasts Demo.empty_world.
Proof.
  apply (POST_screenshot_success Examples.captures
           (Examples.request [("url", JStr Examples.site)]) Demo.empty_world
           Examples.site "aW1hZ2U=" "{}" (JObj [])).
  - reflexivity.
  - discriminate.
  - vm_compute. lia.
  - reflexivity.
  - reflexivity.
  - reflexivity.
  - reflexivity.
Defined.

Lemma failed_commit_leaves_the_asset_witness :
  bucket (snd (RoastServer.commit Demo.insert_fails
                 (Demo.roast_request Examples.site) Examples.site None
                 "RIFFWEBP" Demo.empty_world))
  = ("public/6f1c2a9e-5b7d-4c3a-9e2f-0a1b2c3d4e5f.webp", "RIFFWEBP")
      :: bucket Demo.empty_world /\
  roasts (snd (RoastServer.commit Demo.insert_fails
                 (Demo.roast_request Examples.site) Examples.site None
                 "RIFFWEBP" Demo.empty_world))
  = roasts Demo.empty_world.
Proof.
  pose proof (failed_commit_leaves_the_asset Demo.insert_fails
                (Demo.roast_request Examples.site) Examples.site None "RIFFWEBP"
                Demo.empty_world
                "public/6f1c2a9e-5b7d-4c3a-9e2f-0a1b2c3d4e5f.webp"
                Demo.insert_failure eq_refl eq_refl) as (H1 & H2 & _).
  exact (conj H1 H2).
Defined.

Lemma committed_record_matches_asset_witness :
  exists row p,
    roasts (snd (RoastServer.commit Demo.all_succeed
                   (Demo.roast_request Examples.site) Examples.site None
                   "RIFFWEBP" Demo.empty_world))
    = row :: roasts Demo.empty_world /\
    bucket (snd (RoastServer.commit Demo.all_succeed
                   (Demo.roast_request Examples.site) Examples.site None
                   "RIFFWEBP" Demo.empty_world))
    = (p, "RIFFWEBP") :: bucket Demo.empty_world /\
    storage_upload Demo.all_succeed ("public/" +:+ id row +:+ ".webp") "RIFFWEBP"
    = Return (UploadData p) /\
    screenshot_url row = getPublicUrl Demo.all_succeed p /\
    url row = Examples.site /\
    created_at row = time (Demo.roast_request Examples.site) /\
    visitor_id row = (if truthy None then default JNull None else JNull) /\
    insert_error Demo.all_succeed row = None /\
    res_status_json 200 (RoastServer.row_json Demo.empty_critique_row)
    = res_status_json 200 (RoastServer.row_json row).
Proof.
  apply (committed_record_matches_asset Demo.all_succeed
           (Demo.roast_request Examples.site) Examples.site None "RIFFWEBP"
           Demo.empty_world
           (res_status_json 200 (RoastServer.row_json Demo.empty_critique_row))).
  reflexivity.
Defined.

Lemma committed_roast_is_found_by_id_witness :
  fst (RoastServer.GET_roasts_id Demo.all_succeed (randomUUID Demo.all_succeed)
         (snd (RoastServer.commit Demo.all_succeed
                 (Demo.roast_request Examples.site) Examples.site None
                 "RIFFWEBP" Demo.empty_world)))
  = Return (res_status_json 200 (RoastServer.row_json Demo.empty_critique_row)).
Proof.
  apply (committed_roast_is_found_by_id Demo.all_succeed
           (Demo.roast_request Examples.site) Examples.site None "RIFFWEBP"
           Demo.empty_world).
  - reflexivity.
  - reflexivity.
  - reflexivity.
  - intros r Hr. exfalso. exact (proj1 (elem_of_nil r) Hr).
Defined.

Lemma committed_roast_is_listed_for_its_visitor_witness :
  exists data row,
    fst (RoastServer.GET_roasts_mine Demo.all_succeed Demo.visitor
           (snd (RoastServer.commit Demo.all_succeed
                   (Demo.roast_request Examples.site) Examples.site
                   (Some (JStr Demo.visitor)) "RIFFWEBP" Demo.empty_world)))
    = Return (res_status_json 200 (JArr (map RoastServer.row_json data))) /\
    row ∈ data /\
    fst (RoastServer.commit Demo.all_succeed
           (Demo.roast_request Examples.site) Examples.site
           (Some (JStr Demo.visitor)) "RIFFWEBP" Demo.empty_world)
    = Return (res_status_json 200 (RoastServer.row_json row)).
Proof.
  destruct (committed_roast_is_listed_for_its_visitor Demo.all_succeed
              (Demo.roast_request Examples.site) Examples.site Demo.visitor
              "RIFFWEBP" Demo.empty_world _
              ltac:(discriminate) eq_refl eq_refl eq_refl)
    as (data & row & H1 & H2 & H3).
  exists data, row. split; [exact H1 | split; [exact H2 |]].
  rewrite <- H3. reflexivity.
Defined.

Lemma roast_without_visitor_is_listed_for_nobody_witness :
  RoastServer.eq_visitor_id Demo.visitor
    (roasts (snd (RoastServer.commit Demo.all_succeed
                    (Demo.roast_request Examples.site) Examples.site None
                    "RIFFWEBP" Demo.empty_world)))
  = RoastServer.eq_visitor_id Demo.visitor (roasts Demo.empty_world).
Proof.
  apply (roast_without_visitor_is_listed_for_nobody Demo.all_succeed
           (Demo.roast_request Examples.site) Examples.site None "RIFFWEBP"
           Demo.empty_world
           (res_status_json 200 (RoastServer.row_json Demo.empty_critique_row))).
  - reflexivity.
  - reflexivity.
Defined.


Lemma AppMjs_gate_closed_without_isPrivate_witness :
  (exists res,
     fst (AppMjs.POST_screenshot Examples.no_isPrivate
            (Examples.request [("url", JStr Examples.site)]) Demo.empty_world)
     = Return res /\ status res = 400) /\
  fst (AppMjs.POST_screenshot Examples.no_isPrivate
         (Examples.request [("url", JStr Examples.site)]) Demo.empty_world)
  = Return AppMjs.not_public /\
  calls (snd (AppMjs.POST_screenshot Examples.no_isPrivate
                (Examples.request [("url", JStr Examples.site)]) Demo.empty_world))
  = [DnsLookup "example.com"].
Proof.
  assert (Hlib : forall address addr,
            ipaddr_parse Examples.no_isPrivate address = Return addr ->
            isPrivate addr <> Return false).
  { intros address addr H. cbn in H. injection H as <-. discriminate. }
  split; [| split; [| reflexivity]].
  - exact (proj1 (AppMjs_gate_closed_without_isPrivate Examples.no_isPrivate
                    (Examples.request [("url", JStr Examples.site)])
                    Demo.empty_world Hlib)).
  - refine (proj1 (proj2 (AppMjs_gate_closed_without_isPrivate
                            Examples.no_isPrivate
                            (Examples.request [("url", JStr Examples.site)])
                            Demo.empty_world Hlib))
              Examples.site eq_refl eq_refl _ eq_refl).
    vm_compute. lia.
Defined.
